(** * typescript-lsp: the request dispatcher of [lsp-server.ts]

    A shallow embedding of [src/lsp-server.ts] and of the translation
    helpers of [src/protocol-translation.ts], with the properties of the
    bridge between the editor protocol (zero-based positions) and the
    tsserver protocol (one-based locations).

    JavaScript numbers that carry protocol integers (lines, offsets,
    timestamps) are integers held in IEEE doubles: they are read as [Z],
    and every sum and difference the sources compute is rounded as a
    double is (module [Number]). *)

From Stdlib Require Import ZArith List String Ascii Lia.
From Stdlib Require Import Sorting.Sorted Sorting.Permutation.
From stdpp Require Import base option list strings gmap.
Import ListNotations.

Local Open Scope Z_scope.
Local Open Scope string_scope.

(** ** JavaScript numbers and object literals *)

(** The numbers of the two protocols are integers held in IEEE doubles.
    A sum or a difference of two of them is the exact integer rounded to
    the nearest double, a tie going to the even significand: nothing
    changes up to 2^53 in magnitude; beyond, only the multiples of the
    power of two [ulp] that leaves 53 significant bits exist.  (Sums
    past the largest finite double do not come from adding or taking
    away 1, nor from time values, and are not modelled.) *)
Module Number.
Definition round (z : Z) : Z :=
  (if Z.abs z <=? 2 ^ 53 then z
   else
     let ulp := 2 ^ (Z.log2 (Z.abs z) - 52) in
     let q := Z.abs z / ulp in
     let r := Z.abs z mod ulp in
     let q' :=
       if 2 * r <? ulp then q
       else if ulp <? 2 * r then q + 1
       else if Z.even q then q else q + 1 in
     Z.sgn z * (q' * ulp))%Z.
Definition add (a b : Z) : Z := round (a + b).
Definition sub (a b : Z) : Z := round (a - b).
Definition MAX_SAFE_INTEGER : Z := 2 ^ 53 - 1.
End Number.

(** Reading [literal[name]] on an object literal gives the value of the
    own key, or else the member of that name that every object inherits
    from [Object.prototype], or else undefined. *)
Module Js.
Inductive property (V : Type) : Type :=
  | own (v : V)
  | inherited (name : string)
  | undefined.
Arguments own {V} _.
Arguments inherited {V} _.
Arguments undefined {V}.
Definition Object_prototype : list string :=
  [ "constructor"; "__defineGetter__"; "__defineSetter__"; "hasOwnProperty";
    "__lookupGetter__"; "__lookupSetter__"; "isPrototypeOf"; "propertyIsEnumerable";
    "toString"; "valueOf"; "__proto__"; "toLocaleString" ].
Fixpoint own_property {V : Type} (name : string) (literal : list (string * V)) : option V :=
  match literal with
  | [] => None
  | (k, v) :: literal' => if String.eqb k name then Some v else own_property name literal'
  end.
Definition get {V : Type} (name : string) (literal : list (string * V)) : property V :=
  match own_property name literal with
  | Some v => own v
  | None =>
      if List.existsb (String.eqb name) Object_prototype then inherited name else undefined
  end.
End Js.

(** ** The tsserver protocol ([typescript/lib/protocol]) *)

Module tsp.

Module Location.
Record t : Type := mk { line : Z; offset : Z }.
End Location.

Module TextSpan.
Record t : Type := mk { start : Location.t; end_ : Location.t }.
End TextSpan.

Module FileSpan.
Record t : Type := mk { file : string; start : Location.t; end_ : Location.t }.
End FileSpan.

(** [NavigationTree]: [childItems] is optional in the protocol. *)
Module NavigationTree.
#[local] Unset Elimination Schemes.
Inductive t : Type :=
  mk (text : string) (kind : string) (spans : list TextSpan.t)
     (childItems : option (list t)).
Definition text (e : t) : string := let 'mk x _ _ _ := e in x.
Definition kind (e : t) : string := let 'mk _ x _ _ := e in x.
Definition spans (e : t) : list TextSpan.t := let 'mk _ _ x _ := e in x.
Definition childItems (e : t) : option (list t) := let 'mk _ _ _ x := e in x.
End NavigationTree.

Module Diagnostic.
Record t : Type := mk {
  start : Location.t; end_ : Location.t;
  text : string; category : string; code : option Z }.
End Diagnostic.

Module DiagnosticEventBody.
Record t : Type := mk { file : string; diagnostics : list Diagnostic.t }.
End DiagnosticEventBody.

(** [protocol.Event]; for a diagnostic event the body names the file. *)
Module Event.
Record t : Type := mk {
  type : string; event : string; body : option DiagnosticEventBody.t }.
End Event.

Module SpanGroup.
Record t : Type := mk { file : string; locs : list TextSpan.t }.
End SpanGroup.

Module RenameInfo.
Record t : Type := mk { canRename : bool; displayName : string }.
End RenameInfo.

Module RenameResponseBody.
Record t : Type := mk { info : RenameInfo.t; locs : list SpanGroup.t }.
End RenameResponseBody.

Module SymbolDisplayPart.
Record t : Type := mk { text : string; kind : string }.
End SymbolDisplayPart.

Module CompletionEntryDetails.
Record t : Type := mk { name : string; documentation : list SymbolDisplayPart.t }.
End CompletionEntryDetails.

Module NavtoItem.
Record t : Type := mk {
  name : string; kind : string; file : string;
  start : Location.t; end_ : Location.t }.
End NavtoItem.

(** What a resolved [request] promise carries; the dispatcher reads
    only [body], which a failed command leaves undefined. *)
Module Response.
Record t (B : Type) : Type := mk { body : option B }.
Arguments mk {B} _.
Arguments body {B} _.
End Response.

End tsp.

(** ** The editor protocol ([vscode-languageserver]) *)

Module lsp.

Module Position.
Record t : Type := mk { line : Z; character : Z }.
End Position.

Module Range.
Record t : Type := mk { start : Position.t; end_ : Position.t }.
End Range.

Module Location.
Record t : Type := mk { uri : string; range : Range.t }.
End Location.

(** The numeric values of [lsp.SymbolKind]. *)
Module SymbolKind.
Definition t : Type := Z.
Definition File : t := 1.
Definition Module_ : t := 2.
Definition Class_ : t := 5.
Definition Method : t := 6.
Definition Property : t := 7.
Definition Field : t := 8.
Definition Constructor_ : t := 9.
Definition Enum : t := 10.
Definition Interface : t := 11.
Definition Function_ : t := 12.
Definition Variable_ : t := 13.
Definition Constant : t := 14.
End SymbolKind.

(** [kind] holds what [toSymbolKind] returned, which is not always a
    number. *)
Module SymbolInformation.
Record t : Type := mk {
  name : string; kind : Js.property SymbolKind.t; location : Location.t;
  containerName : option string }.
(** [SymbolInformation.create] of vscode-languageserver: the container
    name is set only [if (containerName)], that is when it is a
    non-empty string. *)
Definition create (name : string) (kind : Js.property SymbolKind.t) (range : Range.t)
    (uri : string) (containerName : option string) : t :=
  {| name := name; kind := kind;
     location := {| Location.uri := uri; Location.range := range |};
     containerName :=
       match containerName with
       | Some c => if String.eqb c "" then None else Some c
       | None => None
       end |}.
End SymbolInformation.

Module TextDocumentItem.
Record t : Type := mk { uri : string; text : string }.
End TextDocumentItem.

Module TextDocumentIdentifier.
Record t : Type := mk { uri : string }.
End TextDocumentIdentifier.

Module TextDocumentContentChangeEvent.
Record t : Type := mk { range : option Range.t; text : string }.
End TextDocumentContentChangeEvent.

Module DidOpenTextDocumentParams.
Record t : Type := mk { textDocument : TextDocumentItem.t }.
End DidOpenTextDocumentParams.

Module DidChangeTextDocumentParams.
Record t : Type := mk {
  textDocument : TextDocumentIdentifier.t;
  contentChanges : list TextDocumentContentChangeEvent.t }.
End DidChangeTextDocumentParams.

Module TextDocumentPositionParams.
Record t : Type := mk { textDocument : TextDocumentIdentifier.t; position : Position.t }.
End TextDocumentPositionParams.

Module RenameParams.
Record t : Type := mk {
  textDocument : TextDocumentIdentifier.t; position : Position.t; newName : string }.
End RenameParams.

Module WorkspaceSymbolParams.
Record t : Type := mk { query : string }.
End WorkspaceSymbolParams.

Module TextEdit.
Record t : Type := mk { newText : string; range : Range.t }.
End TextEdit.

(** [changes] is a JavaScript object keyed by document URI. *)
Module WorkspaceEdit.
Record t : Type := mk { changes : gmap string (list TextEdit.t) }.
End WorkspaceEdit.

(** The [data] the dispatcher stores in a completion item for resolve. *)
Module CompletionData.
Record t : Type := mk { file : string; line : Z; offset : Z }.
End CompletionData.

Module CompletionItem.
Record t : Type := mk {
  label : string; kind : Js.property Z;
  documentation : option string; data : option CompletionData.t }.
End CompletionItem.

Module InitializeParams.
Record t : Type := mk { rootUri : option string; rootPath : option string }.
End InitializeParams.

Module CompletionOptions.
Record t : Type := mk { triggerCharacters : list string; resolveProvider : bool }.
End CompletionOptions.

(** [textDocumentSync] holds the number of a [TextDocumentSyncKind]. *)
Module ServerCapabilities.
Record t : Type := mk {
  textDocumentSync : Z;
  completionProvider : CompletionOptions.t;
  definitionProvider : bool;
  documentSymbolProvider : bool;
  hoverProvider : bool;
  renameProvider : bool;
  referencesProvider : bool;
  workspaceSymbolProvider : bool }.
End ServerCapabilities.

Module TextDocumentSyncKind.
Definition Incremental : Z := 2.
End TextDocumentSyncKind.

End lsp.

(** ** JavaScript values the dispatcher relies on *)

(** A JavaScript [Map<string, number>]: entries are kept in insertion
    order; [set] on a key already present replaces the value in place,
    a new key goes to the end. *)
Module Map.
Definition t : Type := list (string * Z).
Definition empty : t := [].
Fixpoint set (k : string) (v : Z) (m : t) : t :=
  match m with
  | [] => [(k, v)]
  | (k', v') :: m' => if String.eqb k' k then (k', v) :: m' else (k', v') :: set k v m'
  end.
Definition delete (k : string) (m : t) : t :=
  List.filter (fun e => negb (String.eqb (fst e) k)) m.
Definition entries (m : t) : list (string * Z) := m.
Definition keys (m : t) : list string := List.map fst m.
Definition has (k : string) (m : t) : bool :=
  List.existsb (fun e => String.eqb (fst e) k) m.
End Map.

(** [Array.prototype.sort(compareFn)], as a stable insertion sort: an
    element moves in front of a neighbour only when [compareFn] puts it
    strictly before. *)
Module Array.
Fixpoint sort_insert {A : Type} (compareFn : A -> A -> Z) (x : A) (l : list A) : list A :=
  match l with
  | [] => [x]
  | y :: l' => if (compareFn x y <=? 0)%Z then x :: y :: l' else y :: sort_insert compareFn x l'
  end.
Fixpoint sort {A : Type} (compareFn : A -> A -> Z) (l : list A) : list A :=
  match l with
  | [] => []
  | x :: l' => sort_insert compareFn x (sort compareFn l')
  end.
(** [Array.prototype.join] on strings. *)
Definition join (sep : string) (l : list string) : string := String.concat sep l.
End Array.

(** [s.replace(/c/g, by)] for a one-character pattern. *)
Fixpoint String_replace (c : ascii) (by_ : string) (s : string) : string :=
  match s with
  | EmptyString => EmptyString
  | String a s' =>
      if Ascii.eqb a c then by_ ++ String_replace c by_ s'
      else String a (String_replace c by_ s')
  end.

(** JavaScript truthiness of a string that may be undefined or null. *)
Definition truthy (s : option string) : bool :=
  match s with
  | Some s => negb (String.eqb s "")
  | None => false
  end.

(** ** What the sources take from outside the repository

    [fsPath] is [URI.parse(s).fsPath] of the vscode-uri package,
    [platform_win] tells whether [process.platform] matches [/^win/], and
    [SementicDiag], [SyntaxDiag] are the two constants of [EventTypes] in
    tsp-command-types that [onTsEvent] compares event names with. *)
Class Host : Type := {
  fsPath : string -> string;
  platform_win : bool;
  SementicDiag : string;
  SyntaxDiag : string }.

(** The command names of [CommandTypes] the dispatcher sends. *)
Module CommandTypes.
Inductive t : Type :=
  | Change | Close | CompletionDetails | Definition_ | Geterr
  | NavTree | Navto | Open | Rename.
End CommandTypes.

(** ** protocol-translation.ts *)

Section ProtocolTranslation.
Context {host : Host}.

Definition isWindows : bool := platform_win.

Definition uriToPath (stringUri : string) : string := fsPath stringUri.

Definition pathToUri (p : string) : string :=
  "file://" ++ (if isWindows then "/" ++ String_replace "/"%char "/" p else p).

Definition toPosition (location : tsp.Location.t) : lsp.Position.t :=
  {| lsp.Position.line := Number.sub (tsp.Location.line location) 1;
     lsp.Position.character := Number.sub (tsp.Location.offset location) 1 |}.

Definition toLocation (fileSpan : tsp.FileSpan.t) : lsp.Location.t :=
  {| lsp.Location.uri := pathToUri (tsp.FileSpan.file fileSpan);
     lsp.Location.range :=
       {| lsp.Range.start := toPosition (tsp.FileSpan.start fileSpan);
          lsp.Range.end_ := toPosition (tsp.FileSpan.end_ fileSpan) |} |}.

(** The table is an object literal. *)
Definition symbolKindsMapping : list (string * lsp.SymbolKind.t) :=
  [ ("enum member", lsp.SymbolKind.Constant);
    ("JSX attribute", lsp.SymbolKind.Property);
    ("local class", lsp.SymbolKind.Class_);
    ("local function", lsp.SymbolKind.Function_);
    ("local var", lsp.SymbolKind.Variable_);
    ("type parameter", lsp.SymbolKind.Variable_);
    ("alias", lsp.SymbolKind.Variable_);
    ("class", lsp.SymbolKind.Class_);
    ("const", lsp.SymbolKind.Constant);
    ("constructor", lsp.SymbolKind.Constructor_);
    ("enum", lsp.SymbolKind.Enum);
    ("field", lsp.SymbolKind.Field);
    ("file", lsp.SymbolKind.File);
    ("function", lsp.SymbolKind.Function_);
    ("getter", lsp.SymbolKind.Method);
    ("interface", lsp.SymbolKind.Interface);
    ("let", lsp.SymbolKind.Variable_);
    ("method", lsp.SymbolKind.Method);
    ("module", lsp.SymbolKind.Module_);
    ("parameter", lsp.SymbolKind.Variable_);
    ("property", lsp.SymbolKind.Property);
    ("setter", lsp.SymbolKind.Method);
    ("var", lsp.SymbolKind.Variable_) ].

(** [symbolKindsMapping[tspKind] || lsp.SymbolKind.Variable]: a number
    other than 0 and an inherited member are truthy. *)
Definition toSymbolKind (tspKind : string) : Js.property lsp.SymbolKind.t :=
  match Js.get tspKind symbolKindsMapping with
  | Js.own k => if (k =? 0)%Z then Js.own lsp.SymbolKind.Variable_ else Js.own k
  | Js.inherited name => Js.inherited name
  | Js.undefined => Js.own lsp.SymbolKind.Variable_
  end.

End ProtocolTranslation.

(** ** The diagnostic coordinator ([DiagnosticEventQueue]) *)

Module DiagnosticEventQueue.

(** Modelled from the spec: what one publish call of diagnostic-queue.ts
    carries, the file and its full current diagnostic set. *)
Module Publication.
Record t : Type := mk { file : string; diagnostics : list tsp.Diagnostic.t }.
End Publication.

(** Modelled from the spec: the bucket of diagnostic-queue.ts, which is
    not among the sources.  It holds the most recent syntactic and the
    most recent semantic diagnostic set of a file, each independently
    absent until computed. *)
Record Bucket : Type := mkBucket {
  syntactic : option (list tsp.Diagnostic.t);
  semantic : option (list tsp.Diagnostic.t) }.

(** Modelled from the spec: the coordinator state of diagnostic-queue.ts,
    buckets keyed by file path and the files whose bucket was superseded
    by a close. *)
Record t : Type := mk {
  buckets : gmap string Bucket;
  closed : gset string }.

(** Modelled from the spec: the coordinator of diagnostic-queue.ts when
    constructed, without any bucket. *)
Definition empty : t := {| buckets := ∅; closed := ∅ |}.

(** Modelled from the spec: the published view of a bucket of
    diagnostic-queue.ts, the union of its two slots, not deduplicated
    across kinds. *)
Definition view (b : Bucket) : list tsp.Diagnostic.t :=
  default [] (syntactic b) ++ default [] (semantic b).

(** Modelled from the spec: the two classes of diagnostic events
    diagnostic-queue.ts receives. *)
Inductive Kind : Type := Syntactic | Semantic.

(** Modelled from the spec: the update of one slot of a bucket of
    diagnostic-queue.ts by the event class that arrived. *)
Definition update (k : Kind) (ds : list tsp.Diagnostic.t) (b : Bucket) : Bucket :=
  match k with
  | Syntactic => {| syntactic := Some ds; semantic := semantic b |}
  | Semantic => {| syntactic := syntactic b; semantic := Some ds |}
  end.

(** Modelled from the spec: [addSyntactic] and [addSemantic] of
    diagnostic-queue.ts.  The slot of the file's bucket is updated, the
    bucket being created if absent, and the union of both slots is
    published at once; an event for an already closed file is dropped
    silently.  The result is the new state with the publish calls made. *)
Definition add (k : Kind) (file : string) (ds : list tsp.Diagnostic.t) (q : t)
  : t * list Publication.t :=
  if decide (file ∈ closed q) then (q, [])
  else
    let b := update k ds (default (mkBucket None None) (buckets q !! file)) in
    ({| buckets := <[file := b]> (buckets q); closed := closed q |},
     [ {| Publication.file := file; Publication.diagnostics := view b |} ]).

(** Modelled from the spec: the two entry points of diagnostic-queue.ts
    that [onTsEvent] calls with the whole event; file and diagnostics are
    those of the event body, and an event without a body names no file
    and updates nothing. *)
Definition addEvent (k : Kind) (event : tsp.Event.t) (q : t) : t * list Publication.t :=
  match tsp.Event.body event with
  | Some b => add k (tsp.DiagnosticEventBody.file b) (tsp.DiagnosticEventBody.diagnostics b) q
  | None => (q, [])
  end.

Definition addSyntacticDiagnostic : tsp.Event.t -> t -> t * list Publication.t :=
  addEvent Syntactic.

Definition addSemanticDiagnostic : tsp.Event.t -> t -> t * list Publication.t :=
  addEvent Semantic.

(** Modelled from the spec: [close] of the coordinator in
    diagnostic-queue.ts, which discards the bucket of the file and lets
    no later event of the file publish. *)
Definition close (file : string) (q : t) : t :=
  {| buckets := base.delete file (buckets q); closed := {[ file ]} ∪ closed q |}.

End DiagnosticEventQueue.

(** ** Effects of the dispatcher and its monad *)

(** The arguments of the messages sent to tsserver. *)
Module Args.
Inductive t : Type :=
  | FileRequestArgs (file : string)
  | FileLocationRequestArgs (file : string) (line offset : Z)
  | OpenRequestArgs (file : string) (fileContent : string)
  | ChangeRequestArgs (file : string) (line offset endLine endOffset : Z)
                      (insertString : string)
  | GeterrRequestArgs (delay : Z) (files : list string)
  | CompletionDetailsRequestArgs (entryNames : list string) (file : string)
                                 (line offset : Z)
  | NavtoRequestArgs (file : option string) (searchValue : string).
End Args.

(** Calls that leave the dispatcher, in the order they are made.  A log
    call is recorded with its leading text; the objects logged along are
    left out. *)
Inductive Effect : Type :=
  | logger_log (text : string)
  | logger_error (text : string)
  | tspClient_start
  | tspClient_notify (command : CommandTypes.t) (args : Args.t)
  | tspClient_request (command : CommandTypes.t) (args : Args.t)
  | lspClient_publishDiagnostics (diagnostics : DiagnosticEventQueue.Publication.t).

(** A call either returns or throws a [TypeError]. *)
Inductive Outcome (A : Type) : Type :=
  | Ok (a : A)
  | TypeError (message : string).
Arguments Ok {A} _.
Arguments TypeError {A} _.

Module IServerOptions.
Record t : Type := mk { tsserverPath : string; tsserverLogFile : option string }.
End IServerOptions.

Module TspClient.
Record t : Type := mk { tsserverPath : string; logFile : option string }.
End TspClient.

(** The fields of [LspServer]; [initializeParams] and [tspClient] are
    undefined until [initialize] has run. *)
Module LspServer.
Record t : Type := mk {
  options : IServerOptions.t;
  initializeParams : option lsp.InitializeParams.t;
  tspClient : option TspClient.t;
  openedDocumentUris : Map.t;
  diagnosticQueue : DiagnosticEventQueue.t }.
End LspServer.

(** State of the server, outcome of the call, effects in order. *)
Definition M (A : Type) : Type := LspServer.t -> Outcome A * LspServer.t * list Effect.

Definition ret {A : Type} (a : A) : M A := fun s => (Ok a, s, []).

Definition throw {A : Type} (message : string) : M A := fun s => (TypeError message, s, []).

Definition bind {A B : Type} (m : M A) (f : A -> M B) : M B :=
  fun s =>
    match m s with
    | (Ok a, s1, e1) => let '(r, s2, e2) := f a s1 in (r, s2, e1 ++ e2)%list
    | (TypeError message, s1, e1) => (TypeError message, s1, e1)
    end.

#[export] Instance M_ret : MRet M := @ret.
#[export] Instance M_bind : MBind M := fun A B f m => bind m f.

Definition get : M LspServer.t := fun s => (Ok s, s, []).
Definition put (s : LspServer.t) : M unit := fun _ => (Ok tt, s, []).
Definition emit (e : Effect) : M unit := fun s => (Ok tt, s, [e]).

(** A [for ... of] loop over an array. *)
Fixpoint for_of {A : Type} (l : list A) (body : A -> M unit) : M unit :=
  match l with
  | [] => ret tt
  | x :: l' => body x ;; for_of l' body
  end.

Definition outcome {A : Type} (r : Outcome A * LspServer.t * list Effect) : Outcome A := r.1.1.
Definition state {A : Type} (r : Outcome A * LspServer.t * list Effect) : LspServer.t := r.1.2.
Definition effects {A : Type} (r : Outcome A * LspServer.t * list Effect) : list Effect := r.2.

(** ** lsp-server.ts *)

Section LspServerMethods.
Context {host : Host}.

(** [this.logger.log(text, ...)] *)
Definition log (text : string) : M unit := emit (logger_log text).

(** [this.tspClient.notify(command, args)]; throws while [tspClient] is
    undefined. *)
Definition notify (command : CommandTypes.t) (args : Args.t) : M unit :=
  s ← get;
  match LspServer.tspClient s with
  | Some _ => emit (tspClient_notify command args)
  | None => throw "Cannot read property 'notify' of undefined"
  end.

(** [this.tspClient.request(command, args)]: the request is written at
    once; what the returned promise resolves to reaches the caller's
    continuation later. *)
Definition request (command : CommandTypes.t) (args : Args.t) : M unit :=
  s ← get;
  match LspServer.tspClient s with
  | Some _ => emit (tspClient_request command args)
  | None => throw "Cannot read property 'request' of undefined"
  end.

(** [this.tspClient.member] at the head of a call whose arguments have
    yet to be evaluated: the member is read first, and reading it throws
    when there is no client. *)
Definition client_member (member : string) : M unit :=
  s ← get;
  match LspServer.tspClient s with
  | Some _ => mret tt
  | None => throw ("Cannot read property '" ++ member ++ "' of undefined")
  end.

Definition set_openedDocumentUris (m : Map.t) : M unit :=
  s ← get;
  put {| LspServer.options := LspServer.options s;
         LspServer.initializeParams := LspServer.initializeParams s;
         LspServer.tspClient := LspServer.tspClient s;
         LspServer.openedDocumentUris := m;
         LspServer.diagnosticQueue := LspServer.diagnosticQueue s |}.

Definition set_diagnosticQueue (q : DiagnosticEventQueue.t) : M unit :=
  s ← get;
  put {| LspServer.options := LspServer.options s;
         LspServer.initializeParams := LspServer.initializeParams s;
         LspServer.tspClient := LspServer.tspClient s;
         LspServer.openedDocumentUris := LspServer.openedDocumentUris s;
         LspServer.diagnosticQueue := q |}.

(** [new LspServer(options)] *)
Definition constructor (options : IServerOptions.t) : LspServer.t :=
  {| LspServer.options := options;
     LspServer.initializeParams := None;
     LspServer.tspClient := None;
     LspServer.openedDocumentUris := Map.empty;
     LspServer.diagnosticQueue := DiagnosticEventQueue.empty |}.

Definition initializeResult : lsp.ServerCapabilities.t :=
  {| lsp.ServerCapabilities.textDocumentSync := lsp.TextDocumentSyncKind.Incremental;
     lsp.ServerCapabilities.completionProvider :=
       {| lsp.CompletionOptions.triggerCharacters := ["."];
          lsp.CompletionOptions.resolveProvider := true |};
     lsp.ServerCapabilities.definitionProvider := true;
     lsp.ServerCapabilities.documentSymbolProvider := true;
     lsp.ServerCapabilities.hoverProvider := true;
     lsp.ServerCapabilities.renameProvider := true;
     lsp.ServerCapabilities.referencesProvider := true;
     lsp.ServerCapabilities.workspaceSymbolProvider := true |}.

Definition initialize (params : lsp.InitializeParams.t) : M lsp.ServerCapabilities.t :=
  log "initialize";;
  s ← get;
  put {| LspServer.options := LspServer.options s;
         LspServer.initializeParams := Some params;
         LspServer.tspClient :=
           Some {| TspClient.tsserverPath := IServerOptions.tsserverPath (LspServer.options s);
                   TspClient.logFile := IServerOptions.tsserverLogFile (LspServer.options s) |};
         LspServer.openedDocumentUris := LspServer.openedDocumentUris s;
         LspServer.diagnosticQueue := LspServer.diagnosticQueue s |};;
  emit tspClient_start;;
  log "onInitialize result";;
  mret initializeResult.

(** The comparison [(a, b) => a[1] - b[1]] of [requestDiagnostics]. *)
Definition byTimestamp (a b : string * Z) : Z := Number.sub a.2 b.2.

Definition requestDiagnostics : M unit :=
  s ← get;
  let orderedUris :=
    List.map fst
      (Array.sort byTimestamp (Map.entries (LspServer.openedDocumentUris s))) in
  let files := List.map uriToPath orderedUris in
  request CommandTypes.Geterr (Args.GeterrRequestArgs 0 files).

(** [now] is the value of [new Date().getTime()] at the call. *)
Definition didOpenTextDocument (now : Z) (params : lsp.DidOpenTextDocumentParams.t) : M unit :=
  let textDocument := lsp.DidOpenTextDocumentParams.textDocument params in
  let path := uriToPath (lsp.TextDocumentItem.uri textDocument) in
  log "onDidOpenTextDocument";;
  notify CommandTypes.Open
    (Args.OpenRequestArgs path (lsp.TextDocumentItem.text textDocument));;
  s ← get;
  set_openedDocumentUris
    (Map.set (lsp.TextDocumentItem.uri textDocument) now (LspServer.openedDocumentUris s));;
  requestDiagnostics.

Definition didCloseTextDocument (params : lsp.DidOpenTextDocumentParams.t) : M unit :=
  let textDocument := lsp.DidOpenTextDocumentParams.textDocument params in
  let path := uriToPath (lsp.TextDocumentItem.uri textDocument) in
  log "onDidCloseTextDocument";;
  notify CommandTypes.Close (Args.FileRequestArgs path);;
  s ← get;
  set_openedDocumentUris
    (Map.delete (lsp.TextDocumentItem.uri textDocument) (LspServer.openedDocumentUris s)).

(** The body of the loop of [didChangeTextDocument] over
    [params.contentChanges]. *)
Definition applyChange (uri path : string) (change : lsp.TextDocumentContentChangeEvent.t)
  : M unit :=
  match lsp.TextDocumentContentChangeEvent.range change with
  | None =>
      emit (logger_error ("Received non-incremental change for " ++ uri));;
      notify CommandTypes.Open
        (Args.OpenRequestArgs path (lsp.TextDocumentContentChangeEvent.text change))
  | Some range =>
      notify CommandTypes.Change
        (Args.ChangeRequestArgs path
           (Number.add (lsp.Position.line (lsp.Range.start range)) 1)
           (Number.add (lsp.Position.character (lsp.Range.start range)) 1)
           (Number.add (lsp.Position.line (lsp.Range.end_ range)) 1)
           (Number.add (lsp.Position.character (lsp.Range.end_ range)) 1)
           (lsp.TextDocumentContentChangeEvent.text change))
  end.

Definition didChangeTextDocument (now : Z) (params : lsp.DidChangeTextDocumentParams.t)
  : M unit :=
  let uri :=
    lsp.TextDocumentIdentifier.uri (lsp.DidChangeTextDocumentParams.textDocument params) in
  let path := uriToPath uri in
  log "onDidCloseTextDocument";;
  s ← get;
  set_openedDocumentUris (Map.set uri now (LspServer.openedDocumentUris s));;
  for_of (lsp.DidChangeTextDocumentParams.contentChanges params) (applyChange uri path);;
  requestDiagnostics.

Definition didSaveTextDocument (params : lsp.DidChangeTextDocumentParams.t) : M unit :=
  ret tt.

(** An asynchronous method runs up to its [await] in [M] and returns what
    it does with the response once the promise resolves. *)
Definition Async (B A : Type) : Type := M (tsp.Response.t B -> Outcome A).

Definition definition (params : lsp.TextDocumentPositionParams.t)
  : Async (list tsp.FileSpan.t) (list lsp.Location.t) :=
  let path := uriToPath (lsp.TextDocumentIdentifier.uri
                          (lsp.TextDocumentPositionParams.textDocument params)) in
  let position := lsp.TextDocumentPositionParams.position params in
  log "definition";;
  request CommandTypes.Definition_
    (Args.FileLocationRequestArgs path
       (Number.add (lsp.Position.line position) 1)
       (Number.add (lsp.Position.character position) 1));;
  ret (fun result =>
         match tsp.Response.body result with
         | Some body => Ok (List.map toLocation body)
         | None => Ok []
         end).

(** The closure [collectSymbol] of [documentSymbol]; [uri] is
    [params.textDocument.uri], and [acceptor] acts on the array it closes
    over, which is threaded through the traversal. *)
Fixpoint collectSymbol (uri : string) (element : tsp.NavigationTree.t)
    (parent : option string)
    (acceptor : lsp.SymbolInformation.t -> list lsp.SymbolInformation.t ->
                list lsp.SymbolInformation.t)
    (result : list lsp.SymbolInformation.t) {struct element}
  : list lsp.SymbolInformation.t :=
  match element with
  | tsp.NavigationTree.mk text kind spans childItems =>
      let start := head spans in
      let end_ := last spans in
      let result :=
        match start, end_ with
        | Some start, Some end_ =>
            let symbol :=
              lsp.SymbolInformation.create text (toSymbolKind kind)
                {| lsp.Range.start := toPosition (tsp.TextSpan.start start);
                   lsp.Range.end_ := toPosition (tsp.TextSpan.end_ end_) |}
                uri parent in
            acceptor symbol result
        | _, _ => result
        end in
      match childItems with
      | Some childItems =>
          (fix loop (children : list tsp.NavigationTree.t)
               (result : list lsp.SymbolInformation.t) :=
             match children with
             | [] => result
             | child :: children' =>
                 loop children' (collectSymbol uri child (Some text) acceptor result)
             end) childItems result
      | None => result
      end
  end.

(** The acceptor of [documentSymbol]: [sym => result.push(sym)]. *)
Definition push (sym : lsp.SymbolInformation.t) (result : list lsp.SymbolInformation.t)
  : list lsp.SymbolInformation.t := (result ++ [sym])%list.

Definition documentSymbol (params : lsp.TextDocumentPositionParams.t)
  : Async tsp.NavigationTree.t (list lsp.SymbolInformation.t) :=
  let path := uriToPath (lsp.TextDocumentIdentifier.uri
                          (lsp.TextDocumentPositionParams.textDocument params)) in
  log "symbol";;
  request CommandTypes.NavTree (Args.FileRequestArgs path);;
  mret (fun response =>
         match tsp.Response.body response with
         | None => Ok []
         | Some body =>
             Ok (collectSymbol
                   (lsp.TextDocumentIdentifier.uri
                      (lsp.TextDocumentPositionParams.textDocument params)) body None
                   push [])
         end).

Definition newline : string := String (ascii_of_nat 10) EmptyString.

Definition completionResolve (item : lsp.CompletionItem.t)
  : Async (list tsp.CompletionEntryDetails.t) lsp.CompletionItem.t :=
  log "completion/resolve";;
  match lsp.CompletionItem.data item with
  | None => throw "Cannot read property 'file' of undefined"
  | Some data =>
      request CommandTypes.CompletionDetails
        (Args.CompletionDetailsRequestArgs [lsp.CompletionItem.label item]
           (lsp.CompletionData.file data) (lsp.CompletionData.line data)
           (lsp.CompletionData.offset data));;
      mret (fun result =>
             match tsp.Response.body result with
             | None => Ok item
             | Some [] => TypeError "Cannot read property 'documentation' of undefined"
             | Some (details :: _) =>
                 Ok {| lsp.CompletionItem.label := lsp.CompletionItem.label item;
                       lsp.CompletionItem.kind := lsp.CompletionItem.kind item;
                       lsp.CompletionItem.documentation :=
                         Some (Array.join newline
                                 (List.map tsp.SymbolDisplayPart.text
                                    (tsp.CompletionEntryDetails.documentation details)));
                       lsp.CompletionItem.data := lsp.CompletionItem.data item |}
             end)
  end.

(** The body of the outer [forEach] of [rename]: the edits of one span
    group are pushed on the array stored under the group's URI, which is
    created empty when the URI is new. *)
Definition addSpanGroup (newName : string) (changes : gmap string (list lsp.TextEdit.t))
    (spanGroup : tsp.SpanGroup.t) : gmap string (list lsp.TextEdit.t) :=
  let uri := pathToUri (tsp.SpanGroup.file spanGroup) in
  let textEdits := default [] (changes !! uri) in
  <[uri := (textEdits ++
            List.map (fun textSpan =>
                        {| lsp.TextEdit.newText := newName;
                           lsp.TextEdit.range :=
                             {| lsp.Range.start := toPosition (tsp.TextSpan.start textSpan);
                                lsp.Range.end_ := toPosition (tsp.TextSpan.end_ textSpan) |} |})
              (tsp.SpanGroup.locs spanGroup))%list]> changes.

Definition rename (params : lsp.RenameParams.t)
  : Async tsp.RenameResponseBody.t lsp.WorkspaceEdit.t :=
  let path :=
    uriToPath (lsp.TextDocumentIdentifier.uri (lsp.RenameParams.textDocument params)) in
  let position := lsp.RenameParams.position params in
  log "onRename";;
  request CommandTypes.Rename
    (Args.FileLocationRequestArgs path
       (Number.add (lsp.Position.line position) 1)
       (Number.add (lsp.Position.character position) 1));;
  mret (fun result =>
         let workspaceEdit := {| lsp.WorkspaceEdit.changes := ∅ |} in
         match tsp.Response.body result with
         | None => Ok workspaceEdit
         | Some body =>
             if negb (tsp.RenameInfo.canRename (tsp.RenameResponseBody.info body))
                || (Z.of_nat (length (tsp.RenameResponseBody.locs body)) =? 0)%Z
             then Ok workspaceEdit
             else
               Ok {| lsp.WorkspaceEdit.changes :=
                       fold_left (addSpanGroup (lsp.RenameParams.newName params))
                         (tsp.RenameResponseBody.locs body)
                         (lsp.WorkspaceEdit.changes workspaceEdit) |}
         end).

(** The result may be undefined: [rootPath] is optional. *)
Definition lastFileOrDummy : M (option string) :=
  s ← get;
  match Map.keys (LspServer.openedDocumentUris s) with
  | uri :: _ => mret (Some (uriToPath uri))
  | [] =>
      match LspServer.initializeParams s with
      | None => throw "Cannot read property 'rootUri' of undefined"
      | Some initializeParams =>
          if truthy (lsp.InitializeParams.rootUri initializeParams)
          then mret (uriToPath <$> lsp.InitializeParams.rootUri initializeParams)
          else mret (lsp.InitializeParams.rootPath initializeParams)
      end
  end.

Definition workspaceSymbol (params : lsp.WorkspaceSymbolParams.t)
  : Async (list tsp.NavtoItem.t) (list lsp.SymbolInformation.t) :=
  client_member "request";;
  file ← lastFileOrDummy;
  request CommandTypes.Navto
    (Args.NavtoRequestArgs file (lsp.WorkspaceSymbolParams.query params));;
  mret (fun result =>
         match tsp.Response.body result with
         | None => Ok []
         | Some body =>
             Ok (List.map
                   (fun item =>
                      {| lsp.SymbolInformation.location :=
                           {| lsp.Location.uri := pathToUri (tsp.NavtoItem.file item);
                              lsp.Location.range :=
                                {| lsp.Range.start := toPosition (tsp.NavtoItem.start item);
                                   lsp.Range.end_ := toPosition (tsp.NavtoItem.end_ item) |} |};
                         lsp.SymbolInformation.kind := toSymbolKind (tsp.NavtoItem.kind item);
                         lsp.SymbolInformation.name := tsp.NavtoItem.name item;
                         lsp.SymbolInformation.containerName := None |})
                   body)
         end).

(** The callback the constructor hands to the queue:
    [diagnostics => this.options.lspClient.publishDiagnostics(diagnostics)]. *)
Definition publish (r : DiagnosticEventQueue.t * list DiagnosticEventQueue.Publication.t)
  : M unit :=
  set_diagnosticQueue r.1;;
  for_of r.2 (fun diagnostics => emit (lspClient_publishDiagnostics diagnostics)).

Definition onTsEvent (event : tsp.Event.t) : M unit :=
  s ← get;
  if String.eqb (tsp.Event.event event) SementicDiag then
    publish (DiagnosticEventQueue.addSemanticDiagnostic event (LspServer.diagnosticQueue s))
  else if String.eqb (tsp.Event.event event) SyntaxDiag then
    publish (DiagnosticEventQueue.addSyntacticDiagnostic event (LspServer.diagnosticQueue s))
  else
    log ("Ignored event : " ++ tsp.Event.type event).

End LspServerMethods.

(** A POSIX host with tsserver's event names, on which the methods can
    be run.  Its [fsPath] drops the [file://] prefix of a URI, which is
    what [URI.parse(stringUri).fsPath] gives for a URI [file:///path]
    without authority, percent escapes, query or fragment; the sessions
    below use such URIs only, and what is not about a session is proved
    for every host. *)
Definition posix_fsPath (stringUri : string) : string :=
  if String.prefix "file://" stringUri
  then String.substring 7 (String.length stringUri - 7) stringUri
  else stringUri.

Definition posix : Host :=
  {| fsPath := posix_fsPath;
     platform_win := false;
     SementicDiag := "semanticDiag";
     SyntaxDiag := "syntaxDiag" |}.

(** A session on that host, on which the methods are run: the server is
    initialized, then [a.ts] is opened at time 10 and [b.ts] at time 20. *)
Module Session.

Definition options : IServerOptions.t :=
  {| IServerOptions.tsserverPath := "tsserver"; IServerOptions.tsserverLogFile := None |}.

Definition initializeParams : lsp.InitializeParams.t :=
  {| lsp.InitializeParams.rootUri := Some "file:///project";
     lsp.InitializeParams.rootPath := Some "/project" |}.

Definition initialized : LspServer.t := state (initialize initializeParams (constructor options)).

Definition a_ts : lsp.DidOpenTextDocumentParams.t :=
  {| lsp.DidOpenTextDocumentParams.textDocument :=
       {| lsp.TextDocumentItem.uri := "file:///a.ts"; lsp.TextDocumentItem.text := "let a" |} |}.

Definition b_ts : lsp.DidOpenTextDocumentParams.t :=
  {| lsp.DidOpenTextDocumentParams.textDocument :=
       {| lsp.TextDocumentItem.uri := "file:///b.ts"; lsp.TextDocumentItem.text := "let b" |} |}.

Definition opened_a : LspServer.t :=
  state (didOpenTextDocument (host := posix) 10 a_ts initialized).

Definition opened_a_b : LspServer.t :=
  state (didOpenTextDocument (host := posix) 20 b_ts opened_a).

Definition at_ (line offset : Z) : tsp.Location.t :=
  {| tsp.Location.line := line; tsp.Location.offset := offset |}.

Definition diagnostic (text : string) : tsp.Diagnostic.t :=
  {| tsp.Diagnostic.start := at_ 1 1; tsp.Diagnostic.end_ := at_ 1 4;
     tsp.Diagnostic.text := text; tsp.Diagnostic.category := "error";
     tsp.Diagnostic.code := Some 1005%Z |}.

Definition diagnostics_of (event file : string) (ds : list tsp.Diagnostic.t) : tsp.Event.t :=
  {| tsp.Event.type := "event"; tsp.Event.event := event;
     tsp.Event.body :=
       Some {| tsp.DiagnosticEventBody.file := file;
               tsp.DiagnosticEventBody.diagnostics := ds |} |}.

Definition syntaxDiag : tsp.Event.t := diagnostics_of "syntaxDiag" "/a.ts" [diagnostic "';' expected"].

Definition semanticDiag : tsp.Event.t :=
  diagnostics_of "semanticDiag" "/a.ts" [diagnostic "Cannot find name 'x'"].

Definition span (l1 o1 l2 o2 : Z) : tsp.TextSpan.t :=
  {| tsp.TextSpan.start := at_ l1 o1; tsp.TextSpan.end_ := at_ l2 o2 |}.

(** A tree whose root has no span, over a class with two spans and one
    method. *)
Definition method_m : tsp.NavigationTree.t :=
  tsp.NavigationTree.mk "m" "method" [span 2 3 2 9] None.

Definition class_A : tsp.NavigationTree.t :=
  tsp.NavigationTree.mk "A" "class" [span 1 1 3 2; span 5 1 6 2] (Some [method_m]).

Definition navTree : tsp.NavigationTree.t :=
  tsp.NavigationTree.mk "<global>" "script" [] (Some [class_A]).

Definition at_a_ts : lsp.TextDocumentPositionParams.t :=
  {| lsp.TextDocumentPositionParams.textDocument :=
       {| lsp.TextDocumentIdentifier.uri := "file:///a.ts" |};
     lsp.TextDocumentPositionParams.position :=
       {| lsp.Position.line := 0; lsp.Position.character := 4 |} |}.

Definition renameParams : lsp.RenameParams.t :=
  {| lsp.RenameParams.textDocument := {| lsp.TextDocumentIdentifier.uri := "file:///a.ts" |};
     lsp.RenameParams.position := {| lsp.Position.line := 0; lsp.Position.character := 4 |};
     lsp.RenameParams.newName := "b" |}.

Definition notRenamable : tsp.Response.t tsp.RenameResponseBody.t :=
  {| tsp.Response.body :=
       Some {| tsp.RenameResponseBody.info :=
                 {| tsp.RenameInfo.canRename := false; tsp.RenameInfo.displayName := "a" |};
               tsp.RenameResponseBody.locs :=
                 [ {| tsp.SpanGroup.file := "/a.ts"; tsp.SpanGroup.locs := [span 1 5 1 6] |} ] |} |}.

Definition completionData : lsp.CompletionData.t :=
  {| lsp.CompletionData.file := "/a.ts"; lsp.CompletionData.line := 1;
     lsp.CompletionData.offset := 5 |}.

Definition completionItem : lsp.CompletionItem.t :=
  {| lsp.CompletionItem.label := "a"; lsp.CompletionItem.kind := Js.own 6%Z;
     lsp.CompletionItem.documentation := None;
     lsp.CompletionItem.data := Some completionData |}.

(** One change without a range, then one with a range. *)
Definition changes : lsp.DidChangeTextDocumentParams.t :=
  {| lsp.DidChangeTextDocumentParams.textDocument :=
       {| lsp.TextDocumentIdentifier.uri := "file:///a.ts" |};
     lsp.DidChangeTextDocumentParams.contentChanges :=
       [ {| lsp.TextDocumentContentChangeEvent.range := None;
            lsp.TextDocumentContentChangeEvent.text := "let a = 1" |};
         {| lsp.TextDocumentContentChangeEvent.range :=
              Some {| lsp.Range.start := {| lsp.Position.line := 0; lsp.Position.character := 8 |};
                      lsp.Range.end_ := {| lsp.Position.line := 0; lsp.Position.character := 9 |} |};
            lsp.TextDocumentContentChangeEvent.text := "2" |} ] |}.

(** The server with [a.ts] open and syntactic diagnostics of [a.ts] in
    its bucket. *)
Definition reported : LspServer.t :=
  {| LspServer.options := LspServer.options opened_a;
     LspServer.initializeParams := LspServer.initializeParams opened_a;
     LspServer.tspClient := LspServer.tspClient opened_a;
     LspServer.openedDocumentUris := LspServer.openedDocumentUris opened_a;
     LspServer.diagnosticQueue :=
       {| DiagnosticEventQueue.buckets :=
            {[ "/a.ts" :=
                 {| DiagnosticEventQueue.syntactic := Some [diagnostic "';' expected"];
                    DiagnosticEventQueue.semantic := None |} ]};
          DiagnosticEventQueue.closed := ∅ |} |}.

(** A tree whose root has neither spans nor a display text, over one
    variable. *)
Definition variable_x : tsp.NavigationTree.t :=
  tsp.NavigationTree.mk "x" "var" [span 1 5 1 6] None.

Definition unnamed : tsp.NavigationTree.t :=
  tsp.NavigationTree.mk "" "module" [] (Some [variable_x]).

End Session.

(** ** Vocabulary of the properties *)

(** [initialize] has run: the transport client exists. *)
Definition started (s : LspServer.t) : bool :=
  match LspServer.tspClient s with
  | Some _ => true
  | None => false
  end.

(** The payloads of the publish calls among some effects, in order. *)
Definition publications (es : list Effect) : list DiagnosticEventQueue.Publication.t :=
  omap (fun e => match e with
                 | lspClient_publishDiagnostics p => Some p
                 | _ => None
                 end) es.

(** The file lists of the re-analysis ([geterr]) requests among some
    effects, in order. *)
Definition reanalyses (es : list Effect) : list (list string) :=
  omap (fun e => match e with
                 | tspClient_request CommandTypes.Geterr (Args.GeterrRequestArgs _ files) =>
                     Some files
                 | _ => None
                 end) es.

(** The scoping files of the workspace-symbol ([navto]) requests among
    some effects, in order. *)
Definition navto_files (es : list Effect) : list (option string) :=
  omap (fun e => match e with
                 | tspClient_request CommandTypes.Navto (Args.NavtoRequestArgs file _) =>
                     Some file
                 | _ => None
                 end) es.

Definition by_timestamp (a b : string * Z) : Prop := (a.2 <= b.2)%Z.

(** The round trip of positions as the spec words it: for all
    non-negative line and character, one added to each and [toPosition]
    applied gives the position back. *)
Definition position_round_trip_as_claimed : Prop :=
  forall line character : Z,
    (0 <= line)%Z -> (0 <= character)%Z ->
    toPosition {| tsp.Location.line := Number.add line 1;
                  tsp.Location.offset := Number.add character 1 |} =
      {| lsp.Position.line := line; lsp.Position.character := character |}.

Section Vocabulary.
Context {host : Host}.

(** A call ended with exactly one re-analysis request, for all the files
    open when it ended, least recently touched first. *)
Definition reanalysis_issued (r : Outcome unit * LspServer.t * list Effect) : Prop :=
  outcome r = Ok tt /\
  exists ordered : list (string * Z),
    reanalyses (effects r) = [List.map uriToPath (List.map fst ordered)] /\
    Permutation ordered (Map.entries (LspServer.openedDocumentUris (state r))) /\
    StronglySorted by_timestamp ordered.


(** What the spec asks of one content change: a change without a range
    goes out as a full-text open with a logged complaint, a change with a
    range as an incremental edit in one-based coordinates. *)
Definition change_messages (uri path : string)
    (change : lsp.TextDocumentContentChangeEvent.t) : list Effect :=
  match lsp.TextDocumentContentChangeEvent.range change with
  | None =>
      [ logger_error ("Received non-incremental change for " ++ uri);
        tspClient_notify CommandTypes.Open
          (Args.OpenRequestArgs path (lsp.TextDocumentContentChangeEvent.text change)) ]
  | Some range =>
      [ tspClient_notify CommandTypes.Change
          (Args.ChangeRequestArgs path
             (Number.add (lsp.Position.line (lsp.Range.start range)) 1)
             (Number.add (lsp.Position.character (lsp.Range.start range)) 1)
             (Number.add (lsp.Position.line (lsp.Range.end_ range)) 1)
             (Number.add (lsp.Position.character (lsp.Range.end_ range)) 1)
             (lsp.TextDocumentContentChangeEvent.text change)) ]
  end.

(** The symbol [collectSymbol] hands to its acceptor for one node. *)
Definition accept (uri : string) (parent : option string) (element : tsp.NavigationTree.t)
    (acceptor : lsp.SymbolInformation.t -> list lsp.SymbolInformation.t ->
                list lsp.SymbolInformation.t)
    (result : list lsp.SymbolInformation.t) : list lsp.SymbolInformation.t :=
  match head (tsp.NavigationTree.spans element), last (tsp.NavigationTree.spans element) with
  | Some start, Some end_ =>
      acceptor
        (lsp.SymbolInformation.create (tsp.NavigationTree.text element)
           (toSymbolKind (tsp.NavigationTree.kind element))
           {| lsp.Range.start := toPosition (tsp.TextSpan.start start);
              lsp.Range.end_ := toPosition (tsp.TextSpan.end_ end_) |}
           uri parent)
        result
  | _, _ => result
  end.

(** The nodes of a navigation tree in document order, each with the
    display text of its parent. *)
Fixpoint preorder (parent : option string) (element : tsp.NavigationTree.t)
  : list (option string * tsp.NavigationTree.t) :=
  match element with
  | tsp.NavigationTree.mk text _ _ childItems =>
      (parent, element) ::
      match childItems with
      | Some children =>
          (fix over (children : list tsp.NavigationTree.t) :=
             match children with
             | [] => []
             | child :: children' => preorder (Some text) child ++ over children'
             end)%list children
      | None => []
      end
  end.

(** The symbol of a node: none without spans, else one ranging from the
    start of the first span to the end of the last; [container] makes
    the container name of the parent's display text. *)
Definition symbol_with (container : option string -> option string) (uri : string)
    (node : option string * tsp.NavigationTree.t) : option lsp.SymbolInformation.t :=
  let element := node.2 in
  match tsp.NavigationTree.spans element with
  | [] => None
  | first :: rest =>
      Some {| lsp.SymbolInformation.name := tsp.NavigationTree.text element;
              lsp.SymbolInformation.kind := toSymbolKind (tsp.NavigationTree.kind element);
              lsp.SymbolInformation.location :=
                {| lsp.Location.uri := uri;
                   lsp.Location.range :=
                     {| lsp.Range.start := toPosition (tsp.TextSpan.start first);
                        lsp.Range.end_ :=
                          toPosition (tsp.TextSpan.end_ (List.last rest first)) |} |};
              lsp.SymbolInformation.containerName := container node.1 |}
  end.

(** The symbol the spec reports for a node: the container name is the
    parent's display text. *)
Definition symbol_as_claimed : string -> option string * tsp.NavigationTree.t ->
                               option lsp.SymbolInformation.t :=
  symbol_with (fun parent => parent).

(** The container name that is kept of a parent's display text: none
    when the text is empty. *)
Definition kept_container (parent : option string) : option string :=
  match parent with
  | Some text => if String.eqb text "" then None else Some text
  | None => None
  end.

(** The symbol of a node with the container name that is kept. *)
Definition symbol_of : string -> option string * tsp.NavigationTree.t ->
                       option lsp.SymbolInformation.t :=
  symbol_with kept_container.

(** Flattening as the spec words it: every child symbol has its parent's
    display text as container name. *)
Definition documentSymbol_flattens_as_claimed : Prop :=
  forall (params : lsp.TextDocumentPositionParams.t) (s : LspServer.t)
         (body : tsp.NavigationTree.t),
    started s = true ->
    exists k,
      outcome (documentSymbol params s) = Ok k /\
      k {| tsp.Response.body := Some body |} =
        Ok (omap (symbol_as_claimed
                    (lsp.TextDocumentIdentifier.uri
                       (lsp.TextDocumentPositionParams.textDocument params)))
              (preorder None body)).

(** The children of a node without spans as the spec words it: their
    symbols carry the display text of the node as container name. *)
Definition spanless_children_as_claimed : Prop :=
  forall (params : lsp.TextDocumentPositionParams.t) (s : LspServer.t)
         (body element : tsp.NavigationTree.t) (parent : option string),
    started s = true ->
    In (parent, element) (preorder None body) ->
    tsp.NavigationTree.spans element = [] ->
    exists k symbols,
      outcome (documentSymbol params s) = Ok k /\
      k {| tsp.Response.body := Some body |} = Ok symbols /\
      forall children child,
        tsp.NavigationTree.childItems element = Some children ->
        In child children -> tsp.NavigationTree.spans child <> [] ->
        exists sym,
          In sym symbols /\
          lsp.SymbolInformation.name sym = tsp.NavigationTree.text child /\
          lsp.SymbolInformation.containerName sym = Some (tsp.NavigationTree.text element).

(** How [onTsEvent] routes an event: the name is compared with
    [SementicDiag] first. *)
Inductive delivers (event : tsp.Event.t) : DiagnosticEventQueue.Kind -> Prop :=
  | delivers_semantic :
      tsp.Event.event event = SementicDiag ->
      delivers event DiagnosticEventQueue.Semantic
  | delivers_syntactic :
      tsp.Event.event event = SyntaxDiag -> SyntaxDiag <> SementicDiag ->
      delivers event DiagnosticEventQueue.Syntactic.

(** The property of closing as the spec words it: once the close of an
    open document is processed its bucket is gone, and a diagnostic event
    delivered for its file afterwards publishes nothing. *)
Definition close_silences_diagnostics : Prop :=
  forall (s : LspServer.t) (params : lsp.DidOpenTextDocumentParams.t)
         (event : tsp.Event.t) (k : DiagnosticEventQueue.Kind)
         (body : tsp.DiagnosticEventBody.t),
    let uri := lsp.TextDocumentItem.uri (lsp.DidOpenTextDocumentParams.textDocument params) in
    started s = true ->
    Map.has uri (LspServer.openedDocumentUris s) = true ->
    delivers event k ->
    tsp.Event.body event = Some body ->
    tsp.DiagnosticEventBody.file body = uriToPath uri ->
    let closed := state (didCloseTextDocument params s) in
    DiagnosticEventQueue.buckets (LspServer.diagnosticQueue closed) !! uriToPath uri = None /\
    publications (effects (onTsEvent event closed)) = [].

End Vocabulary.

(** ** More of the sources *)

(** Further shapes of the tsserver protocol. *)
Module tsp_replies.

Module CompletionEntry.
Record t : Type := mk { name : string; kind : string; sortText : string }.
End CompletionEntry.

Module QuickInfoResponseBody.
Record t : Type := mk {
  kind : string; start : tsp.Location.t; end_ : tsp.Location.t;
  displayString : string; documentation : string }.
End QuickInfoResponseBody.

Module ReferencesResponseBody.
Record t : Type := mk { refs : list tsp.FileSpan.t; symbolName : string }.
End ReferencesResponseBody.

End tsp_replies.

(** Further shapes of the editor protocol. *)
Module lsp_replies.

(** The numeric values of [lsp.DiagnosticSeverity]. *)
Module DiagnosticSeverity.
Definition Error : Z := 1.
Definition Warning : Z := 2.
Definition Information : Z := 3.
End DiagnosticSeverity.

Module Diagnostic.
Record t : Type := mk {
  range : lsp.Range.t; message : string; severity : Z;
  code : option Z; source : string }.
End Diagnostic.

(** The numeric values of [lsp.CompletionItemKind]. *)
Module CompletionItemKind.
Definition Text : Z := 1.
Definition Method : Z := 2.
Definition Function_ : Z := 3.
Definition Constructor_ : Z := 4.
Definition Field : Z := 5.
Definition Variable_ : Z := 6.
Definition Class_ : Z := 7.
Definition Interface : Z := 8.
Definition Module_ : Z := 9.
Definition Property : Z := 10.
Definition Unit : Z := 11.
Definition Value : Z := 12.
Definition Enum : Z := 13.
Definition Keyword : Z := 14.
Definition Snippet : Z := 15.
Definition File : Z := 17.
Definition Reference : Z := 18.
End CompletionItemKind.

Module CompletionList.
Record t : Type := mk { isIncomplete : bool; items : list lsp.CompletionItem.t }.
End CompletionList.

(** [lsp.MarkedString]: a plain string, or a language with a code value. *)
Module MarkedString.
Inductive t : Type :=
  | plain (value : string)
  | code (language : string) (value : string).
End MarkedString.

Module Hover.
Record t : Type := mk { contents : list MarkedString.t; range : option lsp.Range.t }.
End Hover.

End lsp_replies.

(** *** protocol-translation.ts, continued *)

Definition completionKindsMapping : list (string * Z) :=
  [ ("class", lsp_replies.CompletionItemKind.Class_);
    ("constructor", lsp_replies.CompletionItemKind.Constructor_);
    ("enum", lsp_replies.CompletionItemKind.Enum);
    ("field", lsp_replies.CompletionItemKind.Field);
    ("file", lsp_replies.CompletionItemKind.File);
    ("function", lsp_replies.CompletionItemKind.Function_);
    ("interface", lsp_replies.CompletionItemKind.Interface);
    ("keyword", lsp_replies.CompletionItemKind.Keyword);
    ("method", lsp_replies.CompletionItemKind.Method);
    ("module", lsp_replies.CompletionItemKind.Module_);
    ("property", lsp_replies.CompletionItemKind.Property);
    ("reference", lsp_replies.CompletionItemKind.Reference);
    ("snippet", lsp_replies.CompletionItemKind.Snippet);
    ("text", lsp_replies.CompletionItemKind.Text);
    ("unit", lsp_replies.CompletionItemKind.Unit);
    ("value", lsp_replies.CompletionItemKind.Value);
    ("variable", lsp_replies.CompletionItemKind.Variable_) ].

Definition toDiagnosticSeverity (category : string) : Z :=
  if String.eqb category "error" then lsp_replies.DiagnosticSeverity.Error
  else if String.eqb category "warning" then lsp_replies.DiagnosticSeverity.Warning
  else lsp_replies.DiagnosticSeverity.Information.

Definition toDiagnostic (tspDiag : tsp.Diagnostic.t) : lsp_replies.Diagnostic.t :=
  {| lsp_replies.Diagnostic.range :=
       {| lsp.Range.start := toPosition (tsp.Diagnostic.start tspDiag);
          lsp.Range.end_ := toPosition (tsp.Diagnostic.end_ tspDiag) |};
     lsp_replies.Diagnostic.message := tsp.Diagnostic.text tspDiag;
     lsp_replies.Diagnostic.severity := toDiagnosticSeverity (tsp.Diagnostic.category tspDiag);
     lsp_replies.Diagnostic.code := tsp.Diagnostic.code tspDiag;
     lsp_replies.Diagnostic.source := "typescript" |}.

(** *** lsp-server.ts, continued *)

Section Replies.
Context {host : Host}.

(** What [completion] returns once the response to its request has
    arrived; [path] and the position are those of the call. *)
Definition completion_reply (params : lsp.TextDocumentPositionParams.t)
    (result : tsp.Response.t (list tsp_replies.CompletionEntry.t))
  : Outcome lsp_replies.CompletionList.t :=
  let path := uriToPath (lsp.TextDocumentIdentifier.uri
                          (lsp.TextDocumentPositionParams.textDocument params)) in
  let position := lsp.TextDocumentPositionParams.position params in
  Ok {| lsp_replies.CompletionList.isIncomplete := false;
        lsp_replies.CompletionList.items :=
          match tsp.Response.body result with
          | Some body =>
              List.map
                (fun item =>
                   {| lsp.CompletionItem.label := tsp_replies.CompletionEntry.name item;
                      lsp.CompletionItem.kind :=
                        Js.get (tsp_replies.CompletionEntry.kind item) completionKindsMapping;
                      lsp.CompletionItem.documentation := None;
                      lsp.CompletionItem.data :=
                        Some {| lsp.CompletionData.file := path;
                                lsp.CompletionData.line :=
                                  Number.add (lsp.Position.line position) 1;
                                lsp.CompletionData.offset :=
                                  Number.add (lsp.Position.character position) 1 |} |})
                body
          | None => []
          end |}.

(** What [hover] returns once the response to its request has arrived. *)
Definition hover_reply (result : tsp.Response.t tsp_replies.QuickInfoResponseBody.t)
  : Outcome lsp_replies.Hover.t :=
  match tsp.Response.body result with
  | None => Ok {| lsp_replies.Hover.contents := []; lsp_replies.Hover.range := None |}
  | Some body =>
      let range :=
        {| lsp.Range.start := toPosition (tsp_replies.QuickInfoResponseBody.start body);
           lsp.Range.end_ := toPosition (tsp_replies.QuickInfoResponseBody.end_ body) |} in
      let contents :=
        [ lsp_replies.MarkedString.code "typescript"
            (tsp_replies.QuickInfoResponseBody.displayString body) ] in
      let contents :=
        if truthy (Some (tsp_replies.QuickInfoResponseBody.documentation body))
        then (contents ++
              [lsp_replies.MarkedString.plain
                 (tsp_replies.QuickInfoResponseBody.documentation body)])%list
        else contents in
      Ok {| lsp_replies.Hover.contents := contents; lsp_replies.Hover.range := Some range |}
  end.

(** What [references] returns once the response to its request has
    arrived. *)
Definition references_reply (result : tsp.Response.t tsp_replies.ReferencesResponseBody.t)
  : Outcome (list lsp.Location.t) :=
  match tsp.Response.body result with
  | None => Ok []
  | Some body => Ok (List.map toLocation (tsp_replies.ReferencesResponseBody.refs body))
  end.

End Replies.

(** *** Vocabulary of the further properties *)

(** The messages written to tsserver among some effects, in order. *)
Definition sent (es : list Effect) : list Effect :=
  List.filter (fun e => match e with
                        | tspClient_notify _ _ | tspClient_request _ _ => true
                        | _ => false
                        end) es.

(** A call that keeps a property [P] of the server and, started from a
    server with [P], has only effects with [Q]. *)
Definition keeps {A : Type} (P : LspServer.t -> Prop) (Q : Effect -> Prop) (m : M A) : Prop :=
  forall s, P s -> P (state (m s)) /\ Forall Q (effects (m s)).

Definition is_sent (e : Effect) : bool :=
  match e with
  | tspClient_notify _ _ | tspClient_request _ _ => true
  | _ => false
  end.

Definition is_publish (e : Effect) : bool :=
  match e with
  | lspClient_publishDiagnostics _ => true
  | _ => false
  end.

(** A call that throws on a server without transport client. *)
Definition needs_client {A : Type} (m : M A) : Prop :=
  forall s, started s = false -> exists message, outcome (m s) = TypeError message.

(** The result of a call that threw without writing to tsserver and
    without creating a transport client. *)
Definition threw_unsent {A : Type} (r : Outcome A * LspServer.t * list Effect) : Prop :=
  (exists message, outcome r = TypeError message) /\
  sent (effects r) = [] /\
  started (state r) = false.

(** The result of a call that left the diagnostic queue [q] alone and
    published nothing. *)
Definition unpublished {A : Type} (q : DiagnosticEventQueue.t)
    (r : Outcome A * LspServer.t * list Effect) : Prop :=
  LspServer.diagnosticQueue (state r) = q /\ publications (effects r) = [].

(** Document order of positions and of locations. *)
Definition position_le (a b : lsp.Position.t) : Prop :=
  (lsp.Position.line a < lsp.Position.line b \/
   (lsp.Position.line a = lsp.Position.line b /\
    lsp.Position.character a <= lsp.Position.character b))%Z.

Definition location_le (a b : tsp.Location.t) : Prop :=
  (tsp.Location.line a < tsp.Location.line b \/
   (tsp.Location.line a = tsp.Location.line b /\
    tsp.Location.offset a <= tsp.Location.offset b))%Z.

(** A location whose line and offset are within the integers a
    JavaScript number counts exactly. *)
Definition safe_location (a : tsp.Location.t) : Prop :=
  (0 <= tsp.Location.line a <= 2 ^ 53 /\ 0 <= tsp.Location.offset a <= 2 ^ 53)%Z.

(** What [toSymbolKind] may answer: a kind of the editor protocol, or a
    member inherited from [Object.prototype]. *)
Definition kind_or_inherited (kind : Js.property lsp.SymbolKind.t) : Prop :=
  match kind with
  | Js.own k => (1 <= k <= 14)%Z
  | Js.inherited name => In name Js.Object_prototype
  | Js.undefined => False
  end.

Section RenameVocabulary.
Context {host : Host}.

(** The edits [rename] makes of the spans of one group. *)
Definition edits_of (newName : string) (spans : list tsp.TextSpan.t) : list lsp.TextEdit.t :=
  List.map (fun textSpan =>
              {| lsp.TextEdit.newText := newName;
                 lsp.TextEdit.range :=
                   {| lsp.Range.start := toPosition (tsp.TextSpan.start textSpan);
                      lsp.Range.end_ := toPosition (tsp.TextSpan.end_ textSpan) |} |})
    spans.

(** Whether some group of a rename response is for the document [uri],
    and the edits of all the groups that are, in the order of the
    response. *)
Definition mentions (uri : string) (locs : list tsp.SpanGroup.t) : bool :=
  List.existsb (fun g => String.eqb (pathToUri (tsp.SpanGroup.file g)) uri) locs.

Definition edits_for (newName uri : string) (locs : list tsp.SpanGroup.t)
  : list lsp.TextEdit.t :=
  flat_map (fun g => if String.eqb (pathToUri (tsp.SpanGroup.file g)) uri
                     then edits_of newName (tsp.SpanGroup.locs g) else []) locs.

End RenameVocabulary.

(** Further inputs for the session. *)
Module Samples.

Definition constructed : LspServer.t := constructor Session.options.

Definition renamable : tsp.Response.t tsp.RenameResponseBody.t :=
  {| tsp.Response.body :=
       Some {| tsp.RenameResponseBody.info :=
                 {| tsp.RenameInfo.canRename := true; tsp.RenameInfo.displayName := "a" |};
               tsp.RenameResponseBody.locs :=
                 [ {| tsp.SpanGroup.file := "/a.ts";
                      tsp.SpanGroup.locs := [Session.span 1 5 1 6] |};
                   {| tsp.SpanGroup.file := "/b.ts";
                      tsp.SpanGroup.locs := [Session.span 3 1 3 2] |};
                   {| tsp.SpanGroup.file := "/a.ts";
                      tsp.SpanGroup.locs := [Session.span 7 9 7 10] |} ] |} |}.

Definition completions : tsp.Response.t (list tsp_replies.CompletionEntry.t) :=
  {| tsp.Response.body :=
       Some [ {| tsp_replies.CompletionEntry.name := "toString";
                 tsp_replies.CompletionEntry.kind := "method";
                 tsp_replies.CompletionEntry.sortText := "0" |};
              {| tsp_replies.CompletionEntry.name := "a";
                 tsp_replies.CompletionEntry.kind := "let";
                 tsp_replies.CompletionEntry.sortText := "0" |} ] |}.

Definition toString_item : lsp.CompletionItem.t :=
  {| lsp.CompletionItem.label := "toString";
     lsp.CompletionItem.kind := Js.own lsp_replies.CompletionItemKind.Method;
     lsp.CompletionItem.documentation := None;
     lsp.CompletionItem.data :=
       Some {| lsp.CompletionData.file := "/a.ts"; lsp.CompletionData.line := 1;
               lsp.CompletionData.offset := 5 |} |}.

Definition details : tsp.CompletionEntryDetails.t :=
  {| tsp.CompletionEntryDetails.name := "a";
     tsp.CompletionEntryDetails.documentation :=
       [ {| tsp.SymbolDisplayPart.text := "first"; tsp.SymbolDisplayPart.kind := "text" |};
         {| tsp.SymbolDisplayPart.text := "second"; tsp.SymbolDisplayPart.kind := "text" |} ] |}.

Definition fileSpan : tsp.FileSpan.t :=
  {| tsp.FileSpan.file := "/b.ts"; tsp.FileSpan.start := Session.at_ 3 7;
     tsp.FileSpan.end_ := Session.at_ 3 12 |}.

Definition other : tsp.Event.t :=
  {| tsp.Event.type := "event"; tsp.Event.event := "configFileDiag"; tsp.Event.body := None |}.

Definition change_b : lsp.DidChangeTextDocumentParams.t :=
  {| lsp.DidChangeTextDocumentParams.textDocument :=
       {| lsp.TextDocumentIdentifier.uri := "file:///b.ts" |};
     lsp.DidChangeTextDocumentParams.contentChanges := [] |}.

End Samples.

(** ** Properties *)

(** *** Numbers *)

Lemma Number_round_exact (z : Z) : (Z.abs z <= 2 ^ 53)%Z -> Number.round z = z.
Proof.
  intros Hz. unfold Number.round.
  destruct (Z.leb_spec (Z.abs z) (2 ^ 53)); [reflexivity|lia].
Qed.

Lemma Number_round_magnitude (a : Z) :
  (2 ^ 53 < a ->
   let ulp := 2 ^ (Z.log2 a - 52) in
   let q := a / ulp in
   let r := a mod ulp in
   0 < (if 2 * r <? ulp then q
        else if ulp <? 2 * r then q + 1
        else if Z.even q then q else q + 1) * ulp)%Z.
Proof.
  intros Ha ulp q r.
  assert (Hlog : (53 <= Z.log2 a)%Z).
  { change 53%Z with (Z.log2 (2 ^ 53)). apply Z.log2_le_mono. lia. }
  assert (Hulp : (0 < ulp)%Z) by (apply Z.pow_pos_nonneg; lia).
  assert (Hle : (ulp <= a)%Z).
  { destruct (Z.log2_spec a) as [Hlow _]; [lia|].
    apply Z.le_trans with (2 ^ Z.log2 a)%Z; [|exact Hlow].
    apply Z.pow_le_mono_r; lia. }
  assert (Hq : (0 < q)%Z) by (apply Z.div_str_pos; lia).
  apply Z.mul_pos_pos; [|exact Hulp].
  destruct (2 * r <? ulp)%Z; [exact Hq|].
  destruct (ulp <? 2 * r)%Z; [lia|]. destruct (Z.even q); lia.
Qed.

(** Rounding keeps the sign: a difference is negative, zero or positive
    as the exact difference is. *)
Lemma Number_round_sign (z : Z) : Z.sgn (Number.round z) = Z.sgn z.
Proof.
  unfold Number.round.
  destruct (Z.leb_spec (Z.abs z) (2 ^ 53)) as [_|Hbig]; [reflexivity|].
  pose proof (Number_round_magnitude (Z.abs z) Hbig) as Hpos. cbv zeta in Hpos.
  rewrite Z.sgn_mul, (Z.sgn_pos _ Hpos). lia.
Qed.

Lemma byTimestamp_le (a b : string * Z) : (byTimestamp a b <= 0)%Z <-> by_timestamp a b.
Proof.
  unfold byTimestamp, by_timestamp, Number.sub.
  pose proof (Number_round_sign (a.2 - b.2)) as Hsign.
  destruct (Z.sgn_spec (Number.round (a.2 - b.2))) as [[? ?]|[[? ?]|[? ?]]];
    destruct (Z.sgn_spec (a.2 - b.2)) as [[? ?]|[[? ?]|[? ?]]]; lia.
Qed.

(** *** The sort and the map *)

Section SortFacts.
Context {A : Type} (compareFn : A -> A -> Z).

Lemma sort_insert_Permutation (x : A) (l : list A) :
  Permutation (Array.sort_insert compareFn x l) (x :: l).
Proof.
  induction l as [|y l IH]; simpl; [reflexivity|].
  destruct (compareFn x y <=? 0)%Z; [reflexivity|].
  rewrite IH. apply perm_swap.
Qed.

Lemma sort_Permutation (l : list A) : Permutation (Array.sort compareFn l) l.
Proof.
  induction l as [|x l IH]; simpl; [reflexivity|].
  rewrite sort_insert_Permutation. now constructor.
Qed.

(** The order the comparator induces, when it never puts two elements
    each strictly after the other. *)
Hypothesis compareFn_total : forall a b, (0 < compareFn a b -> compareFn b a <= 0)%Z.

Let before (a b : A) : Prop := (compareFn a b <= 0)%Z.

Lemma sort_insert_Sorted (x : A) (l : list A) :
  Sorted before l -> Sorted before (Array.sort_insert compareFn x l).
Proof.
  induction 1 as [|y l Hl IH Hy]; simpl.
  - repeat constructor.
  - destruct (Z.leb_spec (compareFn x y) 0) as [Hxy|Hxy].
    + constructor; [now constructor|now constructor].
    + constructor; [exact IH|].
      destruct Hy as [|z l' Hz]; simpl.
      * constructor. now apply compareFn_total.
      * destruct (compareFn x z <=? 0)%Z; constructor;
          [now apply compareFn_total|exact Hz].
Qed.

Lemma sort_Sorted (l : list A) : Sorted before (Array.sort compareFn l).
Proof.
  induction l as [|x l IH]; simpl; [constructor|].
  now apply sort_insert_Sorted.
Qed.

End SortFacts.

Lemma sort_by_timestamp (m : list (string * Z)) :
  StronglySorted by_timestamp (Array.sort byTimestamp m).
Proof.
  apply Sorted_StronglySorted.
  - intros a b c; unfold by_timestamp; lia.
  - eapply Sorted_ind with (P := Sorted by_timestamp);
      [constructor| |apply (sort_Sorted byTimestamp)].
    + intros a l _ IH Hd. constructor; [exact IH|].
      destruct Hd; constructor. now apply byTimestamp_le.
    + intros a b Hab. apply byTimestamp_le.
      assert (Hnot : ~ by_timestamp a b) by (rewrite <- byTimestamp_le; lia).
      unfold by_timestamp in *. lia.
Qed.



Lemma Map_has_set (k k' : string) (v : Z) (m : Map.t) :
  Map.has k' (Map.set k v m) = (String.eqb k k' || Map.has k' m)%bool.
Proof.
  induction m as [|[k0 v0] m IH]; simpl.
  - now rewrite orb_false_r.
  - destruct (String.eqb_spec k0 k) as [->|Hne]; simpl.
    + unfold Map.has; simpl. now destruct (String.eqb k k').
    + unfold Map.has in *; simpl. rewrite IH.
      now destruct (String.eqb k0 k'), (String.eqb k k').
Qed.

Lemma Map_has_delete (k : string) (m : Map.t) : Map.has k (Map.delete k m) = false.
Proof.
  induction m as [|[k0 v0] m IH]; simpl; [reflexivity|].
  unfold Map.delete, Map.has in *; simpl.
  destruct (String.eqb_spec k0 k) as [->|Hne]; simpl; [exact IH|].
  rewrite IH. now destruct (String.eqb_spec k0 k).
Qed.

(** A key that is new goes behind every key already there, and a key
    that is there keeps its place: the first key never changes once the
    map has one. *)
Lemma Map_keys_set_head (k k0 : string) (v v0 : Z) (m : Map.t) :
  head (Map.keys (Map.set k v ((k0, v0) :: m))) = Some k0.
Proof. simpl. now destruct (String.eqb k0 k). Qed.

(** *** Running the monad *)

Lemma bind_Ok {A B : Type} (m : M A) (f : A -> M B) (s s1 : LspServer.t) (a : A)
    (e1 : list Effect) :
  m s = (Ok a, s1, e1) ->
  (m ≫= f) s = ((f a s1).1.1, (f a s1).1.2, (e1 ++ (f a s1).2)%list).
Proof.
  intros Hm. unfold mbind, M_bind, bind. rewrite Hm.
  now destruct (f a s1) as [[r s2] e2].
Qed.

Lemma for_of_run {A : Type} (l : list A) (body : A -> M unit) (msgs : A -> list Effect)
    (s : LspServer.t) :
  (forall x, body x s = (Ok tt, s, msgs x)) ->
  for_of l body s = (Ok tt, s, flat_map msgs l).
Proof.
  intros Hbody. induction l as [|x l IH]; simpl; [reflexivity|].
  unfold mbind, M_bind, bind. now rewrite Hbody, IH.
Qed.

Ltac run :=
  unfold set_openedDocumentUris, set_diagnosticQueue, log in *;
  unfold mbind, M_bind, mret, M_ret, bind, ret, throw, get, put, emit,
    outcome, state, effects, started in *;
  simpl in *.

Section Lifecycle.
Context {host : Host}.

Lemma notify_run (command : CommandTypes.t) (args : Args.t) (s : LspServer.t) :
  started s = true ->
  notify command args s = (Ok tt, s, [tspClient_notify command args]).
Proof.
  unfold notify; run. now destruct (LspServer.tspClient s).
Qed.

Lemma client_member_run (member : string) (s : LspServer.t) :
  started s = true -> client_member member s = (Ok tt, s, []).
Proof.
  unfold client_member; run. now destruct (LspServer.tspClient s).
Qed.

Lemma request_run (command : CommandTypes.t) (args : Args.t) (s : LspServer.t) :
  started s = true ->
  request command args s = (Ok tt, s, [tspClient_request command args]).
Proof.
  unfold request; run. now destruct (LspServer.tspClient s).
Qed.

Lemma requestDiagnostics_run (s : LspServer.t) :
  started s = true ->
  requestDiagnostics s =
    (Ok tt, s,
     [tspClient_request CommandTypes.Geterr
        (Args.GeterrRequestArgs 0
           (List.map uriToPath
              (List.map fst
                 (Array.sort byTimestamp
                    (Map.entries (LspServer.openedDocumentUris s))))))]).
Proof.
  intros Hs. unfold requestDiagnostics.
  unfold mbind at 1, M_bind, bind, get. now rewrite request_run.
Qed.

Lemma requestDiagnostics_issued (s : LspServer.t) :
  started s = true -> reanalysis_issued (requestDiagnostics s).
Proof.
  intros Hs. rewrite requestDiagnostics_run by exact Hs.
  split; [reflexivity|].
  eexists; split; [reflexivity|]. split.
  - apply sort_Permutation.
  - apply sort_by_timestamp.
Qed.

Lemma applyChange_run (uri path : string) (change : lsp.TextDocumentContentChangeEvent.t)
    (s : LspServer.t) :
  started s = true ->
  applyChange uri path change s = (Ok tt, s, change_messages uri path change).
Proof.
  intros Hs. unfold applyChange, change_messages.
  destruct (lsp.TextDocumentContentChangeEvent.range change).
  - now apply notify_run.
  - unfold mbind, M_bind, bind, emit. now rewrite notify_run.
Qed.

Lemma didOpenTextDocument_run (now : Z) (params : lsp.DidOpenTextDocumentParams.t)
    (s : LspServer.t) :
  started s = true ->
  let textDocument := lsp.DidOpenTextDocumentParams.textDocument params in
  let opened :=
    {| LspServer.options := LspServer.options s;
       LspServer.initializeParams := LspServer.initializeParams s;
       LspServer.tspClient := LspServer.tspClient s;
       LspServer.openedDocumentUris :=
         Map.set (lsp.TextDocumentItem.uri textDocument) now (LspServer.openedDocumentUris s);
       LspServer.diagnosticQueue := LspServer.diagnosticQueue s |} in
  didOpenTextDocument now params s =
    (Ok tt, opened,
     logger_log "onDidOpenTextDocument" ::
     tspClient_notify CommandTypes.Open
       (Args.OpenRequestArgs (uriToPath (lsp.TextDocumentItem.uri textDocument))
          (lsp.TextDocumentItem.text textDocument)) ::
     (requestDiagnostics opened).2).
Proof.
  intros Hs textDocument opened. unfold didOpenTextDocument.
  unfold set_openedDocumentUris, log.
  unfold mbind, M_bind, bind, emit, get, put.
  rewrite notify_run by exact Hs. fold textDocument. fold opened.
  now rewrite (requestDiagnostics_run opened) by exact Hs.
Qed.

Lemma didChangeTextDocument_run (now : Z) (params : lsp.DidChangeTextDocumentParams.t)
    (s : LspServer.t) :
  started s = true ->
  let uri :=
    lsp.TextDocumentIdentifier.uri (lsp.DidChangeTextDocumentParams.textDocument params) in
  let touched :=
    {| LspServer.options := LspServer.options s;
       LspServer.initializeParams := LspServer.initializeParams s;
       LspServer.tspClient := LspServer.tspClient s;
       LspServer.openedDocumentUris := Map.set uri now (LspServer.openedDocumentUris s);
       LspServer.diagnosticQueue := LspServer.diagnosticQueue s |} in
  didChangeTextDocument now params s =
    (Ok tt, touched,
     (logger_log "onDidCloseTextDocument" ::
      flat_map (change_messages uri (uriToPath uri))
        (lsp.DidChangeTextDocumentParams.contentChanges params) ++
      (requestDiagnostics touched).2)%list).
Proof.
  intros Hs uri touched. unfold didChangeTextDocument.
  unfold set_openedDocumentUris, log.
  unfold mbind, M_bind, bind, emit, get, put.
  fold uri. fold touched.
  rewrite (for_of_run _ _ (change_messages uri (uriToPath uri)) touched)
    by (intros x; now apply applyChange_run).
  now rewrite (requestDiagnostics_run touched) by exact Hs.
Qed.

Lemma didCloseTextDocument_run (params : lsp.DidOpenTextDocumentParams.t) (s : LspServer.t) :
  started s = true ->
  let uri := lsp.TextDocumentItem.uri (lsp.DidOpenTextDocumentParams.textDocument params) in
  didCloseTextDocument params s =
    (Ok tt,
     {| LspServer.options := LspServer.options s;
        LspServer.initializeParams := LspServer.initializeParams s;
        LspServer.tspClient := LspServer.tspClient s;
        LspServer.openedDocumentUris := Map.delete uri (LspServer.openedDocumentUris s);
        LspServer.diagnosticQueue := LspServer.diagnosticQueue s |},
     [ logger_log "onDidCloseTextDocument";
       tspClient_notify CommandTypes.Close (Args.FileRequestArgs (uriToPath uri)) ]).
Proof.
  intros Hs uri. unfold didCloseTextDocument.
  unfold set_openedDocumentUris, log.
  unfold mbind, M_bind, bind, emit, get, put.
  now rewrite notify_run by exact Hs.
Qed.

Lemma reanalyses_app (es es' : list Effect) :
  reanalyses (es ++ es') = (reanalyses es ++ reanalyses es')%list.
Proof. apply omap_app. Qed.

Lemma reanalyses_change_messages (uri path : string)
    (changes : list lsp.TextDocumentContentChangeEvent.t) :
  reanalyses (flat_map (change_messages uri path) changes) = [].
Proof.
  induction changes as [|c changes IH]; simpl; [reflexivity|].
  rewrite reanalyses_app, IH.
  unfold change_messages. now destruct (lsp.TextDocumentContentChangeEvent.range c).
Qed.



End Lifecycle.

(** *** Positions and changes *)

Section Translation.
Context {host : Host}.

Lemma definition_run (params : lsp.TextDocumentPositionParams.t) (s : LspServer.t) :
  started s = true ->
  let position := lsp.TextDocumentPositionParams.position params in
  effects (definition params s) =
    [ logger_log "definition";
      tspClient_request CommandTypes.Definition_
        (Args.FileLocationRequestArgs
           (uriToPath (lsp.TextDocumentIdentifier.uri
                         (lsp.TextDocumentPositionParams.textDocument params)))
           (Number.add (lsp.Position.line position) 1)
           (Number.add (lsp.Position.character position) 1)) ].
Proof.
  intros Hs position. unfold definition, log.
  unfold mbind, M_bind, bind, emit, effects.
  now rewrite request_run by exact Hs.
Qed.

Lemma Number_add_exact (a b : Z) : (Z.abs (a + b) <= 2 ^ 53)%Z -> Number.add a b = (a + b)%Z.
Proof. apply Number_round_exact. Qed.

Lemma Number_sub_exact (a b : Z) : (Z.abs (a - b) <= 2 ^ 53)%Z -> Number.sub a b = (a - b)%Z.
Proof. apply Number_round_exact. Qed.

(** C3, as the code has it. For all line and character from 0 to
    2^53 - 1, the integers a JavaScript number counts exactly, taking a
    zero-based editor position to one-based tsserver coordinates (one
    added to line and to character, as [definition] does for its
    request) and back with [toPosition] gives the original position. *)
Theorem position_round_trip (line character : Z) (s : LspServer.t)
    (textDocument : lsp.TextDocumentIdentifier.t) :
  (0 <= line <= Number.MAX_SAFE_INTEGER)%Z ->
  (0 <= character <= Number.MAX_SAFE_INTEGER)%Z ->
  started s = true ->
  let position := {| lsp.Position.line := line; lsp.Position.character := character |} in
  toPosition {| tsp.Location.line := Number.add line 1;
                tsp.Location.offset := Number.add character 1 |}
    = position /\
  exists file l o,
    effects (definition
               {| lsp.TextDocumentPositionParams.textDocument := textDocument;
                  lsp.TextDocumentPositionParams.position := position |} s)
      = [ logger_log "definition";
          tspClient_request CommandTypes.Definition_ (Args.FileLocationRequestArgs file l o) ] /\
    (l = line + 1)%Z /\ (o = character + 1)%Z /\
    toPosition {| tsp.Location.line := l; tsp.Location.offset := o |} = position.
Proof.
  intros Hline Hcharacter Hs position.
  unfold Number.MAX_SAFE_INTEGER in Hline, Hcharacter.
  change (2 ^ 53)%Z with 9007199254740992%Z in Hline, Hcharacter.
  assert (Hl : Number.add line 1 = (line + 1)%Z)
    by (apply Number_add_exact; change (2 ^ 53)%Z with 9007199254740992%Z; lia).
  assert (Ho : Number.add character 1 = (character + 1)%Z)
    by (apply Number_add_exact; change (2 ^ 53)%Z with 9007199254740992%Z; lia).
  assert (Hback : toPosition {| tsp.Location.line := line + 1;
                               tsp.Location.offset := character + 1 |} = position).
  { unfold toPosition, position; simpl.
    rewrite !Number_sub_exact by (change (2 ^ 53)%Z with 9007199254740992%Z; lia).
    f_equal; lia. }
  rewrite Hl, Ho. split; [exact Hback|].
  rewrite definition_run by exact Hs. simpl. rewrite Hl, Ho.
  do 3 eexists. split; [reflexivity|]. now repeat split.
Qed.


End Translation.

(** *** Document symbols *)

Lemma NavigationTree_ind (P : tsp.NavigationTree.t -> Prop) :
  (forall text kind spans, P (tsp.NavigationTree.mk text kind spans None)) ->
  (forall text kind spans children,
      Forall P children -> P (tsp.NavigationTree.mk text kind spans (Some children))) ->
  forall element, P element.
Proof.
  intros Hleaf Hnode. fix IH 1.
  intros [text kind spans [children|]]; [|apply Hleaf].
  apply Hnode.
  exact ((fix all (l : list tsp.NavigationTree.t) : Forall P l :=
            match l with
            | [] => List.Forall_nil P
            | child :: l' => List.Forall_cons P child l' (IH child) (all l')
            end) children).
Qed.

Lemma List_last_cons {A : Type} (l : list A) :
  forall x d : A, List.last (x :: l) d = List.last l x.
Proof.
  induction l as [|y l IH]; intros x d; [reflexivity|].
  change (List.last (x :: y :: l) d) with (List.last (y :: l) d).
  now rewrite (IH y d), (IH y x).
Qed.

Lemma last_cons_default {A : Type} (l : list A) :
  forall x : A, last (x :: l) = Some (List.last l x).
Proof.
  induction l as [|y l IH]; intros x; [reflexivity|].
  change (last (x :: y :: l)) with (last (y :: l)).
  now rewrite IH, List_last_cons.
Qed.

Section DocumentSymbol.
Context {host : Host}.

Lemma collectSymbol_unfold (uri : string) (element : tsp.NavigationTree.t)
    (parent : option string) acceptor (result : list lsp.SymbolInformation.t) :
  collectSymbol uri element parent acceptor result =
    match tsp.NavigationTree.childItems element with
    | Some children =>
        fold_left
          (fun result child =>
             collectSymbol uri child (Some (tsp.NavigationTree.text element)) acceptor result)
          children (accept uri parent element acceptor result)
    | None => accept uri parent element acceptor result
    end.
Proof.
  destruct element as [text kind spans [children|]]; simpl; [|reflexivity].
  unfold accept; simpl.
  generalize (match head spans with
              | Some start =>
                  match last spans with
                  | Some end_ =>
                      acceptor
                        (lsp.SymbolInformation.create text (toSymbolKind kind)
                           {| lsp.Range.start := toPosition (tsp.TextSpan.start start);
                              lsp.Range.end_ := toPosition (tsp.TextSpan.end_ end_) |}
                           uri parent) result
                  | None => result
                  end
              | None => result
              end).
  induction children as [|child children IH]; intros acc; simpl; [reflexivity|].
  apply IH.
Qed.

Lemma preorder_unfold (parent : option string) (element : tsp.NavigationTree.t) :
  preorder parent element =
    (parent, element) ::
    match tsp.NavigationTree.childItems element with
    | Some children => flat_map (preorder (Some (tsp.NavigationTree.text element))) children
    | None => []
    end.
Proof.
  now destruct element as [text kind spans [children|]].
Qed.

Lemma accept_push (uri : string) (parent : option string) (element : tsp.NavigationTree.t)
    (result : list lsp.SymbolInformation.t) :
  accept uri parent element push result =
    (result ++ from_option (fun sym => [sym]) [] (symbol_of uri (parent, element)))%list.
Proof.
  unfold accept, symbol_of, symbol_with; simpl.
  destruct (tsp.NavigationTree.spans element) as [|first rest].
  - simpl. now rewrite app_nil_r.
  - rewrite last_cons_default. reflexivity.
Qed.

(** The traversal with the pushing acceptor appends, to the array it is
    given, the symbols of the nodes in document order. *)
Lemma collectSymbol_preorder (uri : string) (element : tsp.NavigationTree.t) :
  forall (parent : option string) (result : list lsp.SymbolInformation.t),
    collectSymbol uri element parent push result =
      (result ++ omap (symbol_of uri) (preorder parent element))%list.
Proof.
  induction element as [text kind spans|text kind spans children IH] using NavigationTree_ind;
    intros parent result; rewrite collectSymbol_unfold, preorder_unfold, accept_push;
    cbn [tsp.NavigationTree.childItems tsp.NavigationTree.text omap list_omap].
  - now destruct (symbol_of uri _).
  - set (own := from_option (fun sym => [sym]) [] _).
    replace (match symbol_of uri (parent, tsp.NavigationTree.mk text kind spans (Some children))
             with Some y => y :: _ | None => _ end)
      with (own ++ omap (symbol_of uri) (flat_map (preorder (Some text)) children))%list
      by (subst own; now destruct (symbol_of uri _)).
    rewrite app_assoc. generalize (result ++ own)%list as acc.
    induction IH as [|child children Hchild _ IHchildren]; intros acc; simpl.
    + now rewrite app_nil_r.
    + rewrite Hchild, IHchildren, omap_app. now rewrite app_assoc.
Qed.

Lemma documentSymbol_run (params : lsp.TextDocumentPositionParams.t) (s : LspServer.t) :
  started s = true ->
  exists k,
    outcome (documentSymbol params s) = Ok k /\
    forall response,
      k response =
        match tsp.Response.body response with
        | None => Ok []
        | Some body =>
            Ok (collectSymbol
                  (lsp.TextDocumentIdentifier.uri
                     (lsp.TextDocumentPositionParams.textDocument params))
                  body None push [])
        end.
Proof.
  intros Hs. unfold documentSymbol, log.
  unfold mbind, M_bind, bind, emit, outcome.
  rewrite request_run by exact Hs. simpl.
  eexists; split; [reflexivity|]. intros response. reflexivity.
Qed.

(** C5, as the code has it. For every navigation-tree response
    [documentSymbol] returns a flat sequence that follows the document
    order of the nodes; each symbol in it ranges from the start of its
    node's first span to the end of the node's last span, each child
    symbol has the display text of its parent node as container name
    when that text is not empty and no container name when it is empty,
    and a node without spans gives no symbol. *)
Theorem documentSymbol_flattens (params : lsp.TextDocumentPositionParams.t)
    (s : LspServer.t) (body : tsp.NavigationTree.t) :
  started s = true ->
  let uri :=
    lsp.TextDocumentIdentifier.uri (lsp.TextDocumentPositionParams.textDocument params) in
  exists k,
    outcome (documentSymbol params s) = Ok k /\
    k {| tsp.Response.body := Some body |} = Ok (omap (symbol_of uri) (preorder None body)).
Proof.
  intros Hs uri.
  destruct (documentSymbol_run params s Hs) as (k & Hk & Hresume).
  exists k; split; [exact Hk|].
  rewrite Hresume; simpl. now rewrite collectSymbol_preorder.
Qed.

End DocumentSymbol.

Section SpanlessNodes.
Context {host : Host}.

Lemma preorder_head (parent : option string) (element : tsp.NavigationTree.t) :
  In (parent, element) (preorder parent element).
Proof. rewrite preorder_unfold. now left. Qed.

Lemma preorder_child (parent : option string) (element child : tsp.NavigationTree.t)
    (children : list tsp.NavigationTree.t) :
  tsp.NavigationTree.childItems element = Some children ->
  In child children ->
  In (Some (tsp.NavigationTree.text element), child) (preorder parent element).
Proof.
  intros Hchildren Hin. rewrite preorder_unfold, Hchildren. right.
  apply in_flat_map. exists child. split; [exact Hin|apply preorder_head].
Qed.

(** The nodes below a node of the tree are nodes of the tree. *)
Lemma preorder_subtree (root : tsp.NavigationTree.t) :
  forall (top parent : option string) (element : tsp.NavigationTree.t),
    In (parent, element) (preorder top root) ->
    incl (preorder parent element) (preorder top root).
Proof.
  induction root as [text kind spans|text kind spans children IH] using NavigationTree_ind;
    intros top parent element; rewrite (preorder_unfold top); simpl.
  - intros [Heq|[]]. injection Heq as <- <-. rewrite preorder_unfold. simpl.
    apply incl_refl.
  - intros [Heq|Hin].
    + injection Heq as <- <-. rewrite (preorder_unfold top). simpl. apply incl_refl.
    + apply in_flat_map in Hin as (child & Hchild & Hin).
      rewrite List.Forall_forall in IH.
      intros node Hnode. right. apply in_flat_map. exists child.
      split; [exact Hchild|]. now apply (IH child Hchild (Some text) parent element).
Qed.

Lemma symbol_of_spans (uri : string) (parent : option string)
    (element : tsp.NavigationTree.t) :
  tsp.NavigationTree.spans element <> [] ->
  exists sym,
    symbol_of uri (parent, element) = Some sym /\
    lsp.SymbolInformation.name sym = tsp.NavigationTree.text element /\
    lsp.SymbolInformation.containerName sym = kept_container parent.
Proof.
  intros Hspans. unfold symbol_of, symbol_with; simpl.
  destruct (tsp.NavigationTree.spans element); [congruence|].
  eexists; split; [reflexivity|]. now split.
Qed.

(** C10, as the code has it. In [documentSymbol] a node of the
    navigation tree without spans emits no symbol but its children are
    still visited, with the node's display text as their parent: every
    node below it that has spans has its symbol in the output, and the
    symbols of its direct children carry the node's display text as
    container name when that text is not empty, and no container name
    when it is empty. *)
Theorem spanless_node_is_traversed (params : lsp.TextDocumentPositionParams.t)
    (s : LspServer.t) (body element : tsp.NavigationTree.t) (parent : option string) :
  started s = true ->
  In (parent, element) (preorder None body) ->
  tsp.NavigationTree.spans element = [] ->
  let uri :=
    lsp.TextDocumentIdentifier.uri (lsp.TextDocumentPositionParams.textDocument params) in
  (forall result,
     collectSymbol uri element parent push result =
       fold_left
         (fun result child =>
            collectSymbol uri child (Some (tsp.NavigationTree.text element)) push result)
         (default [] (tsp.NavigationTree.childItems element)) result) /\
  exists k symbols,
    outcome (documentSymbol params s) = Ok k /\
    k {| tsp.Response.body := Some body |} = Ok symbols /\
    (forall p d,
       In (p, d) (preorder parent element) -> tsp.NavigationTree.spans d <> [] ->
       exists sym, symbol_of uri (p, d) = Some sym /\ In sym symbols) /\
    (forall children child,
       tsp.NavigationTree.childItems element = Some children ->
       In child children -> tsp.NavigationTree.spans child <> [] ->
       exists sym,
         symbol_of uri (Some (tsp.NavigationTree.text element), child) = Some sym /\
         In sym symbols /\
         lsp.SymbolInformation.containerName sym =
           if String.eqb (tsp.NavigationTree.text element) ""
           then None else Some (tsp.NavigationTree.text element)).
Proof.
  intros Hs Hin Hspans uri. split.
  - intros result. rewrite collectSymbol_unfold. unfold accept. rewrite Hspans. simpl.
    now destruct (tsp.NavigationTree.childItems element).
  - destruct (documentSymbol_run params s Hs) as (k & Hk & Hresume).
    exists k, (omap (symbol_of uri) (preorder None body)).
    split; [exact Hk|]. split.
    { rewrite Hresume; simpl. now rewrite collectSymbol_preorder. }
    assert (Hbelow : forall p d,
               In (p, d) (preorder parent element) -> tsp.NavigationTree.spans d <> [] ->
               exists sym, symbol_of uri (p, d) = Some sym /\
                           In sym (omap (symbol_of uri) (preorder None body)) /\
                           lsp.SymbolInformation.containerName sym = kept_container p).
    { intros p d Hd Hdspans.
      destruct (symbol_of_spans uri p d Hdspans) as (sym & Hsym & _ & Hcontainer).
      exists sym. split; [exact Hsym|]. split; [|exact Hcontainer].
      apply list_elem_of_In, list_elem_of_omap. exists (p, d).
      split; [|exact Hsym]. apply list_elem_of_In.
      now apply (preorder_subtree body None parent element Hin). }
    split.
    + intros p d Hd Hdspans.
      destruct (Hbelow p d Hd Hdspans) as (sym & Hsym & Hout & _). now exists sym.
    + intros children child Hchildren Hchild Hcspans.
      apply (Hbelow (Some (tsp.NavigationTree.text element)) child); [|exact Hcspans].
      now apply (preorder_child parent element child children).
Qed.

End SpanlessNodes.

(** *** Rename and completion resolve *)

Section Answers.
Context {host : Host}.

(** C6. For every rename request whose response has no body, or reports
    the location as not renamable, or reports no location group, the
    operation returns a workspace edit with an empty change set and does
    not fail. *)
Theorem rename_refusal_is_empty_edit (params : lsp.RenameParams.t) (s : LspServer.t)
    (result : tsp.Response.t tsp.RenameResponseBody.t) :
  started s = true ->
  (tsp.Response.body result = None \/
   exists body,
     tsp.Response.body result = Some body /\
     (tsp.RenameInfo.canRename (tsp.RenameResponseBody.info body) = false \/
      tsp.RenameResponseBody.locs body = [])) ->
  exists k,
    outcome (rename params s) = Ok k /\
    k result = Ok {| lsp.WorkspaceEdit.changes := ∅ |}.
Proof.
  intros Hs Hrefused. unfold rename, log.
  unfold mbind, M_bind, bind, emit, outcome.
  rewrite request_run by exact Hs. simpl.
  eexists; split; [reflexivity|]. simpl.
  destruct Hrefused as [->|(body & -> & [->| ->])]; simpl; try reflexivity.
  now rewrite orb_true_r.
Qed.

(** C9. For every completion-resolve request whose response has no body
    the operation returns the completion item it was given, with no
    field changed. *)
Theorem completionResolve_without_body (item : lsp.CompletionItem.t) (s : LspServer.t)
    (data : lsp.CompletionData.t) :
  started s = true ->
  lsp.CompletionItem.data item = Some data ->
  exists k,
    outcome (completionResolve item s) = Ok k /\
    k {| tsp.Response.body := None |} = Ok item.
Proof.
  intros Hs Hdata. unfold completionResolve, log. rewrite Hdata.
  unfold mbind, M_bind, bind, emit, outcome.
  rewrite request_run by exact Hs. simpl.
  eexists; split; reflexivity.
Qed.

End Answers.

(** *** Diagnostics *)

Section Diagnostics.
Context {host : Host}.

Lemma publish_run (r : DiagnosticEventQueue.t * list DiagnosticEventQueue.Publication.t)
    (s : LspServer.t) :
  publish r s =
    (Ok tt,
     {| LspServer.options := LspServer.options s;
        LspServer.initializeParams := LspServer.initializeParams s;
        LspServer.tspClient := LspServer.tspClient s;
        LspServer.openedDocumentUris := LspServer.openedDocumentUris s;
        LspServer.diagnosticQueue := r.1 |},
     flat_map (fun p => [lspClient_publishDiagnostics p]) r.2).
Proof.
  unfold publish, set_diagnosticQueue.
  unfold mbind, M_bind, bind, get, put.
  now rewrite (for_of_run _ _ (fun p => [lspClient_publishDiagnostics p])).
Qed.

Lemma onTsEvent_delivers (event : tsp.Event.t) (k : DiagnosticEventQueue.Kind)
    (s : LspServer.t) :
  delivers event k ->
  onTsEvent event s =
    publish (DiagnosticEventQueue.addEvent k event (LspServer.diagnosticQueue s)) s.
Proof.
  intros Hk. unfold onTsEvent. unfold mbind, M_bind, bind, get.
  destruct Hk as [Hsem|Hsyn Hne].
  - rewrite Hsem, String.eqb_refl.
    now destruct (publish _ s) as [[r s2] e2].
  - rewrite Hsyn, String.eqb_refl.
    destruct (String.eqb_spec SyntaxDiag SementicDiag) as [Heq|_]; [contradiction|].
    now destruct (publish _ s) as [[r s2] e2].
Qed.

Lemma publications_publish (ps : list DiagnosticEventQueue.Publication.t) :
  publications (flat_map (fun p => [lspClient_publishDiagnostics p]) ps) = ps.
Proof. induction ps as [|p ps IH]; simpl; [reflexivity|]. now f_equal. Qed.

(** A diagnostic event for a file that no close has superseded updates
    the bucket of the file and publishes the union of its slots. *)
Lemma onTsEvent_publishes (event : tsp.Event.t) (k : DiagnosticEventQueue.Kind)
    (body : tsp.DiagnosticEventBody.t) (s : LspServer.t) :
  delivers event k ->
  tsp.Event.body event = Some body ->
  tsp.DiagnosticEventBody.file body ∉ DiagnosticEventQueue.closed (LspServer.diagnosticQueue s) ->
  let file := tsp.DiagnosticEventBody.file body in
  let q := LspServer.diagnosticQueue s in
  let bucket :=
    DiagnosticEventQueue.update k (tsp.DiagnosticEventBody.diagnostics body)
      (default (DiagnosticEventQueue.mkBucket None None)
         (DiagnosticEventQueue.buckets q !! file)) in
  outcome (onTsEvent event s) = Ok tt /\
  LspServer.diagnosticQueue (state (onTsEvent event s)) =
    {| DiagnosticEventQueue.buckets := <[file := bucket]> (DiagnosticEventQueue.buckets q);
       DiagnosticEventQueue.closed := DiagnosticEventQueue.closed q |} /\
  publications (effects (onTsEvent event s)) =
    [ {| DiagnosticEventQueue.Publication.file := file;
         DiagnosticEventQueue.Publication.diagnostics := DiagnosticEventQueue.view bucket |} ].
Proof.
  intros Hk Hbody Hopen file q bucket.
  rewrite (onTsEvent_delivers event k s Hk), publish_run.
  unfold outcome, state, effects; simpl.
  rewrite publications_publish.
  unfold DiagnosticEventQueue.addEvent. rewrite Hbody.
  unfold DiagnosticEventQueue.add. fold file. fold q.
  destruct (decide (file ∈ DiagnosticEventQueue.closed q)) as [Hin|_]; [contradiction|].
  now repeat split.
Qed.

(** C8. A file without diagnostics so far that receives a syntactic
    diagnostic set S1 and then a semantic diagnostic set M1 has the
    publish callback invoked exactly twice: first with S1 alone, then
    with the union of S1 and M1. *)
Theorem syntactic_then_semantic_publishes_twice (s : LspServer.t)
    (syntactic semantic : tsp.Event.t) (file : string) (S1 M1 : list tsp.Diagnostic.t) :
  delivers syntactic DiagnosticEventQueue.Syntactic ->
  delivers semantic DiagnosticEventQueue.Semantic ->
  tsp.Event.body syntactic =
    Some {| tsp.DiagnosticEventBody.file := file; tsp.DiagnosticEventBody.diagnostics := S1 |} ->
  tsp.Event.body semantic =
    Some {| tsp.DiagnosticEventBody.file := file; tsp.DiagnosticEventBody.diagnostics := M1 |} ->
  DiagnosticEventQueue.buckets (LspServer.diagnosticQueue s) !! file = None ->
  file ∉ DiagnosticEventQueue.closed (LspServer.diagnosticQueue s) ->
  let r := (onTsEvent syntactic ≫= fun _ => onTsEvent semantic) s in
  outcome r = Ok tt /\
  publications (effects r) =
    [ {| DiagnosticEventQueue.Publication.file := file;
         DiagnosticEventQueue.Publication.diagnostics := S1 |};
      {| DiagnosticEventQueue.Publication.file := file;
         DiagnosticEventQueue.Publication.diagnostics := (S1 ++ M1)%list |} ].
Proof.
  intros Hsyn Hsem Hbody1 Hbody2 Hfresh Hopen r.
  destruct (onTsEvent_publishes syntactic _ _ s Hsyn Hbody1 Hopen) as (Hok1 & Hq1 & Hpub1).
  simpl in Hq1, Hpub1. rewrite Hfresh in Hq1, Hpub1.
  destruct (onTsEvent syntactic s) as [[o1 s1] e1] eqn:Hrun1.
  unfold outcome, state, effects in Hok1, Hq1, Hpub1; simpl in Hok1, Hq1, Hpub1.
  subst o1.
  assert (Hopen1 : file ∉ DiagnosticEventQueue.closed (LspServer.diagnosticQueue s1))
    by now rewrite Hq1.
  destruct (onTsEvent_publishes semantic _ _ s1 Hsem Hbody2 Hopen1) as (Hok2 & _ & Hpub2).
  simpl in Hpub2. rewrite Hq1 in Hpub2. simpl in Hpub2.
  rewrite lookup_insert_eq in Hpub2.
  subst r. rewrite (bind_Ok _ _ s s1 tt e1 Hrun1).
  unfold outcome, effects in *; simpl.
  split; [exact Hok2|].
  unfold publications in *. rewrite omap_app, Hpub1, Hpub2.
  unfold DiagnosticEventQueue.view; simpl. now rewrite app_nil_r.
Qed.

(** The dispatcher has no call that marks a file as closed in the
    queue. *)
Lemma onTsEvent_never_closes (event : tsp.Event.t) (s : LspServer.t) :
  DiagnosticEventQueue.closed (LspServer.diagnosticQueue (state (onTsEvent event s))) =
    DiagnosticEventQueue.closed (LspServer.diagnosticQueue s).
Proof.
  assert (Hadd : forall k,
             DiagnosticEventQueue.closed
               (DiagnosticEventQueue.addEvent k event (LspServer.diagnosticQueue s)).1 =
               DiagnosticEventQueue.closed (LspServer.diagnosticQueue s)).
  { intros k. unfold DiagnosticEventQueue.addEvent, DiagnosticEventQueue.add.
    destruct (tsp.Event.body event) as [body|]; [|reflexivity].
    now destruct (decide _). }
  unfold onTsEvent. unfold mbind, M_bind, bind, get, state.
  destruct (String.eqb (tsp.Event.event event) SementicDiag).
  - rewrite publish_run. simpl. apply Hadd.
  - destruct (String.eqb (tsp.Event.event event) SyntaxDiag).
    + rewrite publish_run. simpl. apply Hadd.
    + reflexivity.
Qed.

(** The queue's own [close] would silence a file; it is the dispatcher
    that never calls it. *)
Lemma queue_close_silences (k : DiagnosticEventQueue.Kind) (file : string)
    (ds : list tsp.Diagnostic.t) (q : DiagnosticEventQueue.t) :
  DiagnosticEventQueue.buckets (DiagnosticEventQueue.close file q) !! file = None /\
  (DiagnosticEventQueue.add k file ds (DiagnosticEventQueue.close file q)).2 = [].
Proof.
  split.
  - apply lookup_delete_eq.
  - unfold DiagnosticEventQueue.add, DiagnosticEventQueue.close; simpl.
    destruct (decide (file ∈ {[file]} ∪ DiagnosticEventQueue.closed q)) as [_|Hout];
      [reflexivity|]. exfalso. apply Hout. set_solver.
Qed.

(** What [onTsEvent] does depends on the server through its diagnostic
    queue only. *)
Lemma onTsEvent_by_queue (event : tsp.Event.t) (s s' : LspServer.t) :
  LspServer.diagnosticQueue s = LspServer.diagnosticQueue s' ->
  outcome (onTsEvent event s) = outcome (onTsEvent event s') /\
  effects (onTsEvent event s) = effects (onTsEvent event s') /\
  LspServer.diagnosticQueue (state (onTsEvent event s)) =
    LspServer.diagnosticQueue (state (onTsEvent event s')).
Proof.
  intros Hq. unfold onTsEvent. unfold mbind, M_bind, bind, get.
  rewrite Hq.
  destruct (String.eqb (tsp.Event.event event) SementicDiag).
  - rewrite !publish_run. now repeat split.
  - destruct (String.eqb (tsp.Event.event event) SyntaxDiag).
    + rewrite !publish_run. now repeat split.
    + now repeat split.
Qed.

(** C1, as the code has it. Processing the close of a document removes
    it from the open files and notifies tsserver, and does not touch the
    diagnostic queue: the bucket of the file is kept, and an event
    delivered afterwards, syntactic or semantic diagnostics of the
    closed file included, is handed to the queue as it would have been
    without the close, with the same publish calls and the same queue
    as result. *)
Theorem close_keeps_diagnostics_flowing (s : LspServer.t)
    (params : lsp.DidOpenTextDocumentParams.t) (event : tsp.Event.t) :
  started s = true ->
  let uri := lsp.TextDocumentItem.uri (lsp.DidOpenTextDocumentParams.textDocument params) in
  let closed := state (didCloseTextDocument params s) in
  outcome (didCloseTextDocument params s) = Ok tt /\
  effects (didCloseTextDocument params s) =
    [ logger_log "onDidCloseTextDocument";
      tspClient_notify CommandTypes.Close (Args.FileRequestArgs (uriToPath uri)) ] /\
  Map.has uri (LspServer.openedDocumentUris closed) = false /\
  LspServer.diagnosticQueue closed = LspServer.diagnosticQueue s /\
  outcome (onTsEvent event closed) = outcome (onTsEvent event s) /\
  effects (onTsEvent event closed) = effects (onTsEvent event s) /\
  LspServer.diagnosticQueue (state (onTsEvent event closed)) =
    LspServer.diagnosticQueue (state (onTsEvent event s)).
Proof.
  intros Hs uri closed.
  assert (Hqueue : LspServer.diagnosticQueue closed = LspServer.diagnosticQueue s).
  { subst closed. now rewrite (didCloseTextDocument_run params s Hs). }
  split; [now rewrite (didCloseTextDocument_run params s Hs)|].
  split; [now rewrite (didCloseTextDocument_run params s Hs)|].
  split.
  { subst closed. rewrite (didCloseTextDocument_run params s Hs).
    unfold state; simpl. apply Map_has_delete. }
  split; [exact Hqueue|]. now apply onTsEvent_by_queue.
Qed.

End Diagnostics.

(** *** The scoping file of a workspace-symbol search *)

Section ScopingFile.
Context {host : Host}.

Lemma lastFileOrDummy_first_key (s : LspServer.t) (uri : string) (timestamp : Z)
    (rest : Map.t) :
  LspServer.openedDocumentUris s = (uri, timestamp) :: rest ->
  outcome (lastFileOrDummy s) = Ok (Some (uriToPath uri)).
Proof.
  intros Hm. unfold lastFileOrDummy. unfold mbind, M_bind, bind, get, outcome.
  now rewrite Hm.
Qed.

Lemma lastFileOrDummy_no_open_file (s : LspServer.t)
    (initializeParams : lsp.InitializeParams.t) :
  LspServer.openedDocumentUris s = [] ->
  LspServer.initializeParams s = Some initializeParams ->
  outcome (lastFileOrDummy s) =
    Ok (if truthy (lsp.InitializeParams.rootUri initializeParams)
        then uriToPath <$> lsp.InitializeParams.rootUri initializeParams
        else lsp.InitializeParams.rootPath initializeParams).
Proof.
  intros Hm Hp. unfold lastFileOrDummy. unfold mbind, M_bind, bind, get, outcome.
  rewrite Hm, Hp; simpl.
  now destruct (truthy (lsp.InitializeParams.rootUri initializeParams)).
Qed.

(** Opening a document while another is open leaves the scoping file
    with the document that was opened first. *)
Lemma lastFileOrDummy_after_open (s : LspServer.t) (now : Z)
    (params : lsp.DidOpenTextDocumentParams.t) (uri : string) (timestamp : Z)
    (rest : Map.t) :
  started s = true ->
  LspServer.openedDocumentUris s = (uri, timestamp) :: rest ->
  outcome (lastFileOrDummy (state (didOpenTextDocument now params s))) =
    Ok (Some (uriToPath uri)).
Proof.
  intros Hs Hm. rewrite (didOpenTextDocument_run now params s Hs).
  unfold state; simpl. rewrite Hm.
  unfold lastFileOrDummy. unfold mbind, M_bind, bind, get, outcome. simpl.
  now destruct (String.eqb uri _).
Qed.

End ScopingFile.

(** *** The properties on the session *)

(** C2. A workspace-symbol search is to be scoped to the most recently
    opened file.  With [a.ts] opened first and [b.ts] opened after it,
    [b.ts] is the most recently opened file of the session, while the
    request [workspaceSymbol] sends names [a.ts], the first key of the
    map of open documents. *)
Theorem workspaceSymbol_scopes_to_first_opened :
  Map.entries (LspServer.openedDocumentUris Session.opened_a_b) =
    [("file:///a.ts", 10%Z); ("file:///b.ts", 20%Z)] /\
  navto_files
    (effects (workspaceSymbol (host := posix)
                {| lsp.WorkspaceSymbolParams.query := "A" |} Session.opened_a_b))
    = [Some "/a.ts"] /\
  Some "/a.ts" <> Some (uriToPath (host := posix) "file:///b.ts").
Proof. repeat split. discriminate. Qed.

(** C1, refuted as stated: with syntactic diagnostics of [a.ts] in its
    bucket, the bucket is still there after the close of [a.ts] is
    processed. *)
Lemma close_does_not_silence_diagnostics : ~ close_silences_diagnostics (host := posix).
Proof.
  intros Hclaim.
  destruct (Hclaim Session.reported Session.a_ts Session.semanticDiag
              DiagnosticEventQueue.Semantic
              {| tsp.DiagnosticEventBody.file := "/a.ts";
                 tsp.DiagnosticEventBody.diagnostics :=
                   [Session.diagnostic "Cannot find name 'x'"] |})
    as [Hdiscarded _]; try reflexivity.
  - apply delivers_semantic. reflexivity.
  - vm_compute in Hdiscarded. discriminate Hdiscarded.
Qed.

Lemma session_nothing_closed (file : string) (s : LspServer.t) :
  DiagnosticEventQueue.closed (LspServer.diagnosticQueue s) = ∅ ->
  file ∉ DiagnosticEventQueue.closed (LspServer.diagnosticQueue s).
Proof. intros ->. apply not_elem_of_empty. Qed.

Lemma close_keeps_diagnostics_flowing_witness :
  started Session.reported = true /\
  LspServer.diagnosticQueue
    (state (didCloseTextDocument (host := posix) Session.a_ts Session.reported)) =
    LspServer.diagnosticQueue Session.reported /\
  effects (onTsEvent (host := posix) Session.semanticDiag
             (state (didCloseTextDocument (host := posix) Session.a_ts Session.reported))) =
    effects (onTsEvent (host := posix) Session.semanticDiag Session.reported).
Proof.
  split; [reflexivity|].
  destruct (close_keeps_diagnostics_flowing (host := posix) Session.reported Session.a_ts
              Session.semanticDiag) as (_ & _ & _ & Hqueue & _ & Heffects & _);
    [reflexivity|].
  split; [exact Hqueue|exact Heffects].
Defined.

Lemma position_round_trip_witness :
  (0 <= 0 <= Number.MAX_SAFE_INTEGER)%Z /\ (0 <= 4 <= Number.MAX_SAFE_INTEGER)%Z /\
  started Session.opened_a = true /\
  toPosition {| tsp.Location.line := Number.add 0 1; tsp.Location.offset := Number.add 4 1 |} =
    {| lsp.Position.line := 0; lsp.Position.character := 4 |}.
Proof.
  assert (Hsafe : forall n : Z,
             (0 <= n <= 4)%Z -> (0 <= n <= Number.MAX_SAFE_INTEGER)%Z)
    by (intros n Hn; unfold Number.MAX_SAFE_INTEGER;
        change (2 ^ 53)%Z with 9007199254740992%Z; lia).
  split; [apply Hsafe; lia|]. split; [apply Hsafe; lia|]. split; [reflexivity|].
  apply (position_round_trip (host := posix) 0 4 Session.opened_a
           {| lsp.TextDocumentIdentifier.uri := "file:///a.ts" |});
    [apply Hsafe; lia|apply Hsafe; lia|reflexivity].
Defined.

(** C3, refuted as stated: at line 2^53 the request carries 2^53, the
    nearest double to 2^53 + 1, and [toPosition] gives 2^53 - 1 back. *)
Lemma position_round_trip_fails_above_safe_integers : ~ position_round_trip_as_claimed.
Proof.
  intros Hclaim. specialize (Hclaim (2 ^ 53)%Z 0%Z).
  assert (Hback : toPosition {| tsp.Location.line := Number.add (2 ^ 53) 1;
                               tsp.Location.offset := Number.add 0 1 |} =
                  {| lsp.Position.line := 2 ^ 53 - 1; lsp.Position.character := 0 |})
    by reflexivity.
  rewrite Hback in Hclaim. discriminate Hclaim; [discriminate|reflexivity].
Qed.


Lemma documentSymbol_flattens_witness :
  started Session.opened_a = true /\
  exists k,
    outcome (documentSymbol (host := posix) Session.at_a_ts Session.opened_a) = Ok k /\
    k {| tsp.Response.body := Some Session.navTree |} =
      Ok (omap (symbol_of "file:///a.ts") (preorder None Session.navTree)).
Proof.
  split; [reflexivity|].
  apply (documentSymbol_flattens (host := posix) Session.at_a_ts Session.opened_a
           Session.navTree).
  reflexivity.
Defined.

Lemma spanless_node_is_traversed_witness :
  started Session.opened_a = true /\
  In (None, Session.navTree) (preorder None Session.navTree) /\
  tsp.NavigationTree.spans Session.navTree = [] /\
  exists k symbols,
    outcome (documentSymbol (host := posix) Session.at_a_ts Session.opened_a) = Ok k /\
    k {| tsp.Response.body := Some Session.navTree |} = Ok symbols /\
    exists sym,
      symbol_of "file:///a.ts" (Some "<global>", Session.class_A) = Some sym /\
      In sym symbols /\
      lsp.SymbolInformation.containerName sym = Some "<global>".
Proof.
  split; [reflexivity|]. split; [left; reflexivity|]. split; [reflexivity|].
  destruct (spanless_node_is_traversed (host := posix) Session.at_a_ts Session.opened_a
              Session.navTree Session.navTree None)
    as [_ (k & symbols & Hk & Hsymbols & _ & Hchildren)];
    [reflexivity|left; reflexivity|reflexivity|].
  exists k, symbols. split; [exact Hk|]. split; [exact Hsymbols|].
  apply (Hchildren [Session.class_A] Session.class_A);
    [reflexivity|left; reflexivity|discriminate].
Defined.

(** C5, refuted as stated: under a root whose display text is empty the
    symbol of the variable has no container name, where the empty text
    is claimed. *)
Lemma documentSymbol_drops_empty_container :
  ~ documentSymbol_flattens_as_claimed (host := posix).
Proof.
  intros Hclaim.
  destruct (Hclaim Session.at_a_ts Session.opened_a Session.unnamed eq_refl)
    as (k & Hk & Hclaimed).
  destruct (documentSymbol_run (host := posix) Session.at_a_ts Session.opened_a eq_refl)
    as (k' & Hk' & Hresume).
  rewrite Hk in Hk'. injection Hk' as ->.
  rewrite Hresume in Hclaimed. vm_compute in Hclaimed. discriminate Hclaimed.
Qed.

(** C10, refuted as stated: the root has no spans and an empty display
    text, and the symbol of its child has no container name. *)
Lemma spanless_unnamed_node_gives_no_container :
  ~ spanless_children_as_claimed (host := posix).
Proof.
  intros Hclaim.
  destruct (Hclaim Session.at_a_ts Session.opened_a Session.unnamed Session.unnamed None
              eq_refl) as (k & symbols & Hk & Hsymbols & Hchildren);
    [left; reflexivity|reflexivity|].
  destruct (documentSymbol_run (host := posix) Session.at_a_ts Session.opened_a eq_refl)
    as (k' & Hk' & Hresume).
  rewrite Hk in Hk'. injection Hk' as ->.
  rewrite Hresume in Hsymbols. injection Hsymbols as <-.
  destruct (Hchildren [Session.variable_x] Session.variable_x eq_refl (or_introl eq_refl))
    as (sym & Hin & _ & Hcontainer); [discriminate|].
  vm_compute in Hin. destruct Hin as [<-|[]]. discriminate Hcontainer.
Qed.

Lemma rename_refusal_is_empty_edit_witness :
  started Session.opened_a = true /\
  tsp.RenameInfo.canRename
    (tsp.RenameResponseBody.info
       (default {| tsp.RenameResponseBody.info :=
                     {| tsp.RenameInfo.canRename := true; tsp.RenameInfo.displayName := "" |};
                   tsp.RenameResponseBody.locs := [] |}
          (tsp.Response.body Session.notRenamable))) = false /\
  exists k,
    outcome (rename (host := posix) Session.renameParams Session.opened_a) = Ok k /\
    k Session.notRenamable = Ok {| lsp.WorkspaceEdit.changes := ∅ |}.
Proof.
  split; [reflexivity|]. split; [reflexivity|].
  apply (rename_refusal_is_empty_edit (host := posix) Session.renameParams Session.opened_a
           Session.notRenamable); [reflexivity|].
  right. eexists. split; [reflexivity|]. left. reflexivity.
Defined.

Lemma completionResolve_without_body_witness :
  started Session.opened_a = true /\
  lsp.CompletionItem.data Session.completionItem = Some Session.completionData /\
  exists k,
    outcome (completionResolve Session.completionItem Session.opened_a) = Ok k /\
    k {| tsp.Response.body := None |} = Ok Session.completionItem.
Proof.
  split; [reflexivity|]. split; [reflexivity|].
  apply (completionResolve_without_body Session.completionItem Session.opened_a
           Session.completionData); reflexivity.
Defined.


Lemma syntactic_then_semantic_publishes_twice_witness :
  delivers (host := posix) Session.syntaxDiag DiagnosticEventQueue.Syntactic /\
  delivers (host := posix) Session.semanticDiag DiagnosticEventQueue.Semantic /\
  DiagnosticEventQueue.buckets (LspServer.diagnosticQueue Session.opened_a) !! "/a.ts" = None /\
  publications
    (effects ((onTsEvent (host := posix) Session.syntaxDiag ≫=
               fun _ => onTsEvent (host := posix) Session.semanticDiag) Session.opened_a))
    = [ {| DiagnosticEventQueue.Publication.file := "/a.ts";
           DiagnosticEventQueue.Publication.diagnostics :=
             [Session.diagnostic "';' expected"] |};
        {| DiagnosticEventQueue.Publication.file := "/a.ts";
           DiagnosticEventQueue.Publication.diagnostics :=
             [Session.diagnostic "';' expected"; Session.diagnostic "Cannot find name 'x'"] |} ].
Proof.
  assert (Hsyn : delivers (host := posix) Session.syntaxDiag DiagnosticEventQueue.Syntactic)
    by (apply delivers_syntactic; [reflexivity|discriminate]).
  assert (Hsem : delivers (host := posix) Session.semanticDiag DiagnosticEventQueue.Semantic)
    by (apply delivers_semantic; reflexivity).
  split; [exact Hsyn|]. split; [exact Hsem|]. split; [reflexivity|].
  apply (syntactic_then_semantic_publishes_twice (host := posix) Session.opened_a
           Session.syntaxDiag Session.semanticDiag "/a.ts"
           [Session.diagnostic "';' expected"] [Session.diagnostic "Cannot find name 'x'"]);
    [exact Hsyn|exact Hsem|reflexivity|reflexivity|reflexivity|].
  apply session_nothing_closed. reflexivity.
Defined.

(** ** Further properties of the sources *)

(** *** Translation helpers *)

Lemma String_replace_same (c : ascii) (s : string) :
  String_replace c (String c EmptyString) s = s.
Proof.
  induction s as [|a s IH]; simpl; [reflexivity|].
  destruct (Ascii.eqb_spec a c) as [->|_]; simpl; now rewrite IH.
Qed.

Lemma Js_own_property_In {V : Type} (name : string) (literal : list (string * V)) (v : V) :
  Js.own_property name literal = Some v -> In (name, v) literal.
Proof.
  induction literal as [|[k w] literal IH]; simpl; [discriminate|].
  destruct (String.eqb_spec k name) as [->|_].
  - intros [= ->]. now left.
  - intros Hget. right. now apply IH.
Qed.

Lemma Js_own_property_None {V : Type} (name : string) (literal : list (string * V)) :
  ~ In name (List.map fst literal) -> Js.own_property name literal = None.
Proof.
  induction literal as [|[k w] literal IH]; simpl; [reflexivity|].
  intros Hout. destruct (String.eqb_spec k name) as [->|_]; [|apply IH]; tauto.
Qed.

Lemma Js_own_property_Some {V : Type} (name : string) (literal : list (string * V)) :
  In name (List.map fst literal) -> exists v, Js.own_property name literal = Some v.
Proof.
  induction literal as [|[k w] literal IH]; simpl; [intros []|].
  destruct (String.eqb_spec k name) as [->|Hne]; [eauto|].
  intros [Heq|Hin]; [contradiction|now apply IH].
Qed.

Lemma Js_inherited_In (name : string) :
  List.existsb (String.eqb name) Js.Object_prototype = true <-> In name Js.Object_prototype.
Proof.
  rewrite existsb_exists. split.
  - intros (x & Hin & Heq). apply String.eqb_eq in Heq. now subst.
  - intros Hin. exists name. split; [exact Hin|apply String.eqb_refl].
Qed.

Lemma toPosition_le (a b : tsp.Location.t) :
  safe_location a -> safe_location b ->
  (position_le (toPosition a) (toPosition b) <-> location_le a b).
Proof.
  unfold safe_location, position_le, location_le, toPosition.
  change (2 ^ 53)%Z with 9007199254740992%Z. intros Ha Hb. simpl.
  rewrite !Number_sub_exact by (change (2 ^ 53)%Z with 9007199254740992%Z; lia).
  lia.
Qed.

Section TranslationFacts.
Context {host : Host}.

(** X1. [pathToUri] changes no character of the path: the replacement it
    applies on Windows puts a slash for every slash, so the result is
    the path behind [file://], with one more slash on Windows, and
    backslashes stay as they are. *)
Theorem pathToUri_keeps_path (p : string) :
  pathToUri p = "file://" ++ (if isWindows then "/" ++ p else p).
Proof.
  unfold pathToUri. now rewrite String_replace_same.
Qed.

(** X2. [pathToUri] gives different URIs to different paths. *)
Theorem pathToUri_injective (p q : string) : pathToUri p = pathToUri q -> p = q.
Proof.
  unfold pathToUri. rewrite !String_replace_same.
  destruct isWindows; simpl; intros Heq; injection Heq as Heq; exact Heq.
Qed.

(** X3. Asking for the definition at the start of a location tsserver
    reported, as [toLocation] hands it to the editor, sends tsserver the
    line and offset it reported, for every line and offset from 0 to
    2^53. *)
Theorem definition_at_reported_location (s : LspServer.t) (fileSpan : tsp.FileSpan.t)
    (textDocument : lsp.TextDocumentIdentifier.t) :
  started s = true ->
  safe_location (tsp.FileSpan.start fileSpan) ->
  effects (definition
             {| lsp.TextDocumentPositionParams.textDocument := textDocument;
                lsp.TextDocumentPositionParams.position :=
                  lsp.Range.start (lsp.Location.range (toLocation fileSpan)) |} s) =
    [ logger_log "definition";
      tspClient_request CommandTypes.Definition_
        (Args.FileLocationRequestArgs (uriToPath (lsp.TextDocumentIdentifier.uri textDocument))
           (tsp.Location.line (tsp.FileSpan.start fileSpan))
           (tsp.Location.offset (tsp.FileSpan.start fileSpan))) ].
Proof.
  intros Hs [Hline Hoffset]. change (2 ^ 53)%Z with 9007199254740992%Z in Hline, Hoffset.
  rewrite definition_run by exact Hs. simpl.
  rewrite !Number_sub_exact by (change (2 ^ 53)%Z with 9007199254740992%Z; lia).
  rewrite !Number_add_exact by (change (2 ^ 53)%Z with 9007199254740992%Z; lia).
  repeat f_equal; lia.
Qed.

(** X4. For spans whose lines and offsets are from 0 to 2^53,
    [toLocation] and [toDiagnostic] keep the document order of the two
    ends: the range they build has its start before or at its end
    exactly when the tsserver span has. *)
Theorem translated_ranges_keep_order (fileSpan : tsp.FileSpan.t) (tspDiag : tsp.Diagnostic.t) :
  safe_location (tsp.FileSpan.start fileSpan) ->
  safe_location (tsp.FileSpan.end_ fileSpan) ->
  safe_location (tsp.Diagnostic.start tspDiag) ->
  safe_location (tsp.Diagnostic.end_ tspDiag) ->
  (position_le (lsp.Range.start (lsp.Location.range (toLocation fileSpan)))
               (lsp.Range.end_ (lsp.Location.range (toLocation fileSpan))) <->
   location_le (tsp.FileSpan.start fileSpan) (tsp.FileSpan.end_ fileSpan)) /\
  (position_le (lsp.Range.start (lsp_replies.Diagnostic.range (toDiagnostic tspDiag)))
               (lsp.Range.end_ (lsp_replies.Diagnostic.range (toDiagnostic tspDiag))) <->
   location_le (tsp.Diagnostic.start tspDiag) (tsp.Diagnostic.end_ tspDiag)).
Proof. intros Hs He Hds Hde. split; now apply toPosition_le. Qed.

Lemma toSymbolKind_cases (tspKind : string) :
  kind_or_inherited (toSymbolKind tspKind) /\
  (~ In tspKind (List.map fst symbolKindsMapping) ->
   toSymbolKind tspKind =
     if List.existsb (String.eqb tspKind) Js.Object_prototype
     then Js.inherited tspKind else Js.own lsp.SymbolKind.Variable_).
Proof.
  unfold toSymbolKind, Js.get.
  destruct (Js.own_property tspKind symbolKindsMapping) as [k|] eqn:Hget.
  - apply Js_own_property_In in Hget. split.
    + assert (Hall : forallb (fun e : string * Z => (1 <=? e.2)%Z && (e.2 <=? 14)%Z)
                       symbolKindsMapping = true) by reflexivity.
      rewrite forallb_forall in Hall. specialize (Hall _ Hget). simpl in Hall.
      destruct (Z.eqb_spec k 0); simpl; [vm_compute; split; discriminate|lia].
    + intros Hout. exfalso. apply Hout. apply in_map_iff. now exists (tspKind, k).
  - destruct (List.existsb (String.eqb tspKind) Js.Object_prototype) eqn:Hinherited.
    + split; [|reflexivity]. simpl. now apply Js_inherited_In.
    + split; [|reflexivity]. vm_compute; split; discriminate.
Qed.

(** X5. [toSymbolKind] answers a key of its table with a kind of the
    editor protocol, a number from 1 to 14.  A string that is not a key
    gets [Variable], unless it names a member that the table inherits
    from [Object.prototype], such as [toString]: then the answer is that
    member and no kind. *)
Theorem toSymbolKind_valid (tspKind : string) :
  kind_or_inherited (toSymbolKind tspKind) /\
  (In tspKind (List.map fst symbolKindsMapping) ->
   exists kind, toSymbolKind tspKind = Js.own kind /\ (1 <= kind <= 14)%Z) /\
  (~ In tspKind (List.map fst symbolKindsMapping) ->
   (In tspKind Js.Object_prototype -> toSymbolKind tspKind = Js.inherited tspKind) /\
   (~ In tspKind Js.Object_prototype -> toSymbolKind tspKind = Js.own lsp.SymbolKind.Variable_)).
Proof.
  destruct (toSymbolKind_cases tspKind) as [Hkind Hother].
  split; [exact Hkind|]. split.
  - intros Hkey. destruct (Js_own_property_Some _ _ Hkey) as [k Hget].
    unfold toSymbolKind, Js.get in *. rewrite Hget in *.
    destruct (k =? 0)%Z; eexists; split; try reflexivity; exact Hkind.
  - intros Hout. rewrite (Hother Hout). split; intros Hin.
    + apply Js_inherited_In in Hin. now rewrite Hin.
    + destruct (List.existsb _ _) eqn:Hex; [|reflexivity].
      apply Js_inherited_In in Hex. contradiction.
Qed.

End TranslationFacts.

(** *** What every call keeps *)

Section Keeps.
Context {host : Host}.
Variable P : LspServer.t -> Prop.
Variable Q : Effect -> Prop.

Lemma keeps_ret {A : Type} (a : A) : keeps P Q (mret a).
Proof. intros s Hs. now split. Qed.

Lemma keeps_throw {A : Type} (message : string) : keeps P Q (@throw A message).
Proof. intros s Hs. now split. Qed.

Lemma keeps_get : keeps P Q get.
Proof. intros s Hs. now split. Qed.

Lemma keeps_emit (e : Effect) : Q e -> keeps P Q (emit e).
Proof. intros He s Hs. split; [exact Hs|]. now repeat constructor. Qed.

Lemma keeps_log (text : string) : Q (logger_log text) -> keeps P Q (log text).
Proof. apply keeps_emit. Qed.

Lemma keeps_bind {A B : Type} (m : M A) (f : A -> M B) :
  keeps P Q m -> (forall a, keeps P Q (f a)) -> keeps P Q (m ≫= f).
Proof.
  intros Hm Hf s Hs. destruct (Hm s Hs) as [HP HQ].
  unfold mbind, M_bind, bind, state, effects in *.
  destruct (m s) as [[[a|message] s1] e1]; simpl in *; [|now split].
  destruct (Hf a s1 HP) as [HP2 HQ2]. unfold state, effects in *.
  destruct (f a s1) as [[r s2] e2]; simpl in *.
  split; [exact HP2|]. apply Forall_app. now split.
Qed.

Lemma keeps_for_of {A : Type} (l : list A) (body : A -> M unit) :
  (forall x, keeps P Q (body x)) -> keeps P Q (for_of l body).
Proof.
  intros Hbody. induction l as [|x l IH]; simpl.
  - apply (keeps_ret tt).
  - apply keeps_bind; [apply Hbody|intros _; exact IH].
Qed.

Lemma keeps_notify (command : CommandTypes.t) (args : Args.t) :
  (forall s, P s -> started s = true -> Q (tspClient_notify command args)) ->
  keeps P Q (notify command args).
Proof.
  intros HQ s Hs. specialize (HQ s Hs). unfold notify, started in *.
  unfold mbind, M_bind, bind, get, emit, throw, state, effects.
  destruct (LspServer.tspClient s); simpl; split; auto.
Qed.

Lemma keeps_request (command : CommandTypes.t) (args : Args.t) :
  (forall s, P s -> started s = true -> Q (tspClient_request command args)) ->
  keeps P Q (request command args).
Proof.
  intros HQ s Hs. specialize (HQ s Hs). unfold request, started in *.
  unfold mbind, M_bind, bind, get, emit, throw, state, effects.
  destruct (LspServer.tspClient s); simpl; split; auto.
Qed.

Lemma keeps_client_member (member : string) : keeps P Q (client_member member).
Proof.
  intros s Hs. unfold client_member.
  unfold mbind, M_bind, bind, get, throw, state, effects.
  destruct (LspServer.tspClient s); simpl; split; auto.
Qed.

(** The property does not depend on the map of open documents. *)
Hypothesis P_documents :
  forall s m,
    P s ->
    P {| LspServer.options := LspServer.options s;
         LspServer.initializeParams := LspServer.initializeParams s;
         LspServer.tspClient := LspServer.tspClient s;
         LspServer.openedDocumentUris := m;
         LspServer.diagnosticQueue := LspServer.diagnosticQueue s |}.

Lemma keeps_set_openedDocumentUris (m : Map.t) : keeps P Q (set_openedDocumentUris m).
Proof. intros s Hs. split; [now apply P_documents|constructor]. Qed.

(** The effects that the calls below make satisfy [Q]: logging always,
    writing to tsserver when there is a transport client. *)
Hypothesis Q_log : forall text, Q (logger_log text).
Hypothesis Q_error : forall text, Q (logger_error text).
Hypothesis Q_notify :
  forall s command args, P s -> started s = true -> Q (tspClient_notify command args).
Hypothesis Q_request :
  forall s command args, P s -> started s = true -> Q (tspClient_request command args).

Ltac keeps_steps :=
  repeat lazymatch goal with
    | |- keeps _ _ (log _) => apply keeps_log; apply Q_log
    | |- keeps _ _ (emit _) => apply keeps_emit; apply Q_error
    | |- keeps _ _ (notify _ _) => apply keeps_notify; intros ?; apply Q_notify
    | |- keeps _ _ (request _ _) => apply keeps_request; intros ?; apply Q_request
    | |- keeps _ _ (set_openedDocumentUris _) => apply keeps_set_openedDocumentUris
    | |- keeps _ _ (client_member _) => apply keeps_client_member
    | |- keeps _ _ get => apply keeps_get
    | |- keeps _ _ (mret _) => apply keeps_ret
    | |- keeps _ _ (ret _) => apply keeps_ret
    | |- keeps _ _ (throw _) => apply keeps_throw
    | |- keeps _ _ (for_of _ _) => apply keeps_for_of; intros ?
    | |- keeps _ _ (mbind _ _) => apply keeps_bind; [|intros ?]
    | |- keeps _ _ (let _ := _ in _) => cbv zeta
    end.

Lemma keeps_requestDiagnostics : keeps P Q requestDiagnostics.
Proof. unfold requestDiagnostics. keeps_steps. Qed.

Lemma keeps_didOpenTextDocument (now : Z) (params : lsp.DidOpenTextDocumentParams.t) :
  keeps P Q (didOpenTextDocument now params).
Proof. unfold didOpenTextDocument. keeps_steps. apply keeps_requestDiagnostics. Qed.

Lemma keeps_didCloseTextDocument (params : lsp.DidOpenTextDocumentParams.t) :
  keeps P Q (didCloseTextDocument params).
Proof. unfold didCloseTextDocument. keeps_steps. Qed.

Lemma keeps_applyChange (uri path : string) (change : lsp.TextDocumentContentChangeEvent.t) :
  keeps P Q (applyChange uri path change).
Proof.
  unfold applyChange.
  destruct (lsp.TextDocumentContentChangeEvent.range change); keeps_steps.
Qed.

Lemma keeps_didChangeTextDocument (now : Z) (params : lsp.DidChangeTextDocumentParams.t) :
  keeps P Q (didChangeTextDocument now params).
Proof.
  unfold didChangeTextDocument. keeps_steps;
    [apply keeps_applyChange|apply keeps_requestDiagnostics].
Qed.

Lemma keeps_didSaveTextDocument (params : lsp.DidChangeTextDocumentParams.t) :
  keeps P Q (didSaveTextDocument params).
Proof. apply (keeps_ret tt). Qed.

Lemma keeps_definition (params : lsp.TextDocumentPositionParams.t) :
  keeps P Q (definition params).
Proof. unfold definition. keeps_steps. Qed.

Lemma keeps_documentSymbol (params : lsp.TextDocumentPositionParams.t) :
  keeps P Q (documentSymbol params).
Proof. unfold documentSymbol. keeps_steps. Qed.

Lemma keeps_completionResolve (item : lsp.CompletionItem.t) :
  keeps P Q (completionResolve item).
Proof.
  unfold completionResolve. keeps_steps.
  destruct (lsp.CompletionItem.data item); keeps_steps.
Qed.

Lemma keeps_rename (params : lsp.RenameParams.t) : keeps P Q (rename params).
Proof. unfold rename. keeps_steps. Qed.

Lemma keeps_lastFileOrDummy : keeps P Q lastFileOrDummy.
Proof.
  unfold lastFileOrDummy. keeps_steps.
  destruct (Map.keys _); keeps_steps.
  destruct (LspServer.initializeParams _); keeps_steps.
  destruct (truthy _); keeps_steps.
Qed.

Lemma keeps_workspaceSymbol (params : lsp.WorkspaceSymbolParams.t) :
  keeps P Q (workspaceSymbol params).
Proof. unfold workspaceSymbol. keeps_steps. apply keeps_lastFileOrDummy. Qed.

End Keeps.

Lemma sent_nil (es : list Effect) : Forall (fun e => is_sent e = false) es -> sent es = [].
Proof.
  induction 1 as [|e es He _ IH]; [reflexivity|].
  unfold sent in *; simpl. fold (is_sent e). now rewrite He.
Qed.

Lemma publications_nil (es : list Effect) :
  Forall (fun e => is_publish e = false) es -> publications es = [].
Proof.
  induction 1 as [|e es He _ IH]; [reflexivity|].
  destruct e; try discriminate He; exact IH.
Qed.

(** *** Before [initialize] *)

Section BeforeInitialize.
Context {host : Host}.

Let unstarted (s : LspServer.t) : Prop := started s = false.
Let unsent (e : Effect) : Prop := is_sent e = false.

Lemma needs_client_throw {A : Type} (message : string) : needs_client (@throw A message).
Proof. intros s _. now exists message. Qed.

Lemma needs_client_notify (command : CommandTypes.t) (args : Args.t) :
  needs_client (notify command args).
Proof.
  intros s Hs. unfold notify, started in *.
  unfold mbind, M_bind, bind, get, throw, outcome.
  destruct (LspServer.tspClient s); [discriminate|]. simpl. eauto.
Qed.

Lemma needs_client_request (command : CommandTypes.t) (args : Args.t) :
  needs_client (request command args).
Proof.
  intros s Hs. unfold request, started in *.
  unfold mbind, M_bind, bind, get, throw, outcome.
  destruct (LspServer.tspClient s); [discriminate|]. simpl. eauto.
Qed.

Lemma needs_client_member (member : string) : needs_client (client_member member).
Proof.
  intros s Hs. unfold client_member, started in *.
  unfold mbind, M_bind, bind, get, throw, outcome.
  destruct (LspServer.tspClient s); [discriminate|]. simpl. eauto.
Qed.

Lemma needs_client_first {A B : Type} (m : M A) (f : A -> M B) :
  needs_client m -> needs_client (m ≫= f).
Proof.
  intros Hm s Hs. destruct (Hm s Hs) as [message Hthrown].
  unfold mbind, M_bind, bind, outcome in *.
  destruct (m s) as [[[a|message'] s1] e1]; simpl in *; [discriminate|]. eauto.
Qed.

Lemma needs_client_then {A B : Type} (m : M A) (f : A -> M B) :
  keeps unstarted unsent m -> (forall a, needs_client (f a)) -> needs_client (m ≫= f).
Proof.
  intros Hm Hf s Hs. destruct (Hm s Hs) as [Hs1 _].
  unfold mbind, M_bind, bind, outcome, state in *.
  destruct (m s) as [[[a|message] s1] e1]; simpl in *; [|eauto].
  destruct (Hf a s1 Hs1) as [message Hthrown]. unfold outcome in Hthrown.
  destruct (f a s1) as [[r s2] e2]; simpl in *. eauto.
Qed.

Lemma unstarted_documents (s : LspServer.t) (m : Map.t) :
  unstarted s ->
  unstarted {| LspServer.options := LspServer.options s;
               LspServer.initializeParams := LspServer.initializeParams s;
               LspServer.tspClient := LspServer.tspClient s;
               LspServer.openedDocumentUris := m;
               LspServer.diagnosticQueue := LspServer.diagnosticQueue s |}.
Proof. intros Hs. exact Hs. Qed.

Lemma unsent_when_unstarted (e : Effect) (s : LspServer.t) :
  unstarted s -> started s = true -> unsent e.
Proof. unfold unstarted. congruence. Qed.

Ltac muted :=
  first
    [ apply keeps_log | apply keeps_get | apply keeps_set_openedDocumentUris
    | apply keeps_for_of; intros ?; apply keeps_applyChange
    | apply keeps_lastFileOrDummy ];
  first [ exact unstarted_documents | reflexivity
        | intros ? ? ?; apply unsent_when_unstarted | idtac ].

Ltac needs :=
  repeat lazymatch goal with
    | |- needs_client (notify _ _ ≫= _) => apply needs_client_first, needs_client_notify
    | |- needs_client (request _ _ ≫= _) => apply needs_client_first, needs_client_request
    | |- needs_client (client_member _ ≫= _) => apply needs_client_first, needs_client_member
    | |- needs_client (notify _ _) => apply needs_client_notify
    | |- needs_client (request _ _) => apply needs_client_request
    | |- needs_client (throw _) => apply needs_client_throw
    | |- needs_client (_ ≫= _) => apply needs_client_then; [muted|intros ?]
    | |- needs_client (let _ := _ in _) => cbv zeta
    end.

Lemma needs_client_requestDiagnostics : needs_client requestDiagnostics.
Proof. unfold requestDiagnostics. needs. Qed.

Lemma threw_unsent_intro {A : Type} (m : M A) (s : LspServer.t) :
  needs_client m -> keeps unstarted unsent m -> started s = false -> threw_unsent (m s).
Proof.
  intros Hneeds Hkeeps Hs. destruct (Hkeeps s Hs) as [Hs1 Hunsent].
  split; [now apply Hneeds|]. split; [now apply sent_nil|exact Hs1].
Qed.

(** X6. While [initialize] has not run there is no transport client:
    every call that talks to tsserver then throws a TypeError, writes
    nothing to tsserver, and leaves the server without client. *)
Theorem nothing_is_sent_before_initialize (s : LspServer.t) :
  started s = false ->
  (forall now params, threw_unsent (didOpenTextDocument now params s)) /\
  (forall params, threw_unsent (didCloseTextDocument params s)) /\
  (forall now params, threw_unsent (didChangeTextDocument now params s)) /\
  threw_unsent (requestDiagnostics s) /\
  (forall params, threw_unsent (definition params s)) /\
  (forall params, threw_unsent (documentSymbol params s)) /\
  (forall item, threw_unsent (completionResolve item s)) /\
  (forall params, threw_unsent (rename params s)) /\
  (forall params, threw_unsent (workspaceSymbol params s)).
Proof.
  intros Hs.
  assert (Hmute : forall e s', unstarted s' -> started s' = true -> unsent e)
    by (intros e s'; apply unsent_when_unstarted).
  assert (Hopen : forall now params, threw_unsent (didOpenTextDocument now params s)).
  { intros. apply threw_unsent_intro; [| |exact Hs].
    - unfold didOpenTextDocument. needs.
    - apply keeps_didOpenTextDocument; first [exact unstarted_documents|reflexivity|idtac];
        intros ? ? ?; apply Hmute. }
  assert (Hclose : forall params, threw_unsent (didCloseTextDocument params s)).
  { intros. apply threw_unsent_intro; [| |exact Hs].
    - unfold didCloseTextDocument. needs.
    - apply keeps_didCloseTextDocument; first [exact unstarted_documents|reflexivity|idtac];
        intros ? ? ?; apply Hmute. }
  assert (Hchange : forall now params, threw_unsent (didChangeTextDocument now params s)).
  { intros. apply threw_unsent_intro; [| |exact Hs].
    - unfold didChangeTextDocument. needs. apply needs_client_requestDiagnostics.
    - apply keeps_didChangeTextDocument; first [exact unstarted_documents|reflexivity|idtac];
        intros ? ? ?; apply Hmute. }
  assert (Hgeterr : threw_unsent (requestDiagnostics s)).
  { apply threw_unsent_intro; [| |exact Hs].
    - apply needs_client_requestDiagnostics.
    - apply keeps_requestDiagnostics. intros ? ? ?; apply Hmute. }
  assert (Hdefinition : forall params, threw_unsent (definition params s)).
  { intros. apply threw_unsent_intro; [| |exact Hs].
    - unfold definition. needs.
    - apply keeps_definition; first [reflexivity|idtac]; intros ? ? ?; apply Hmute. }
  assert (Hsymbol : forall params, threw_unsent (documentSymbol params s)).
  { intros. apply threw_unsent_intro; [| |exact Hs].
    - unfold documentSymbol. needs.
    - apply keeps_documentSymbol; first [reflexivity|idtac]; intros ? ? ?; apply Hmute. }
  assert (Hresolve : forall item, threw_unsent (completionResolve item s)).
  { intros. apply threw_unsent_intro; [| |exact Hs].
    - unfold completionResolve. needs. destruct (lsp.CompletionItem.data _); needs.
    - apply keeps_completionResolve; first [reflexivity|idtac]; intros ? ? ?; apply Hmute. }
  assert (Hrename : forall params, threw_unsent (rename params s)).
  { intros. apply threw_unsent_intro; [| |exact Hs].
    - unfold rename. needs.
    - apply keeps_rename; first [reflexivity|idtac]; intros ? ? ?; apply Hmute. }
  assert (Hworkspace : forall params, threw_unsent (workspaceSymbol params s)).
  { intros. apply threw_unsent_intro; [| |exact Hs].
    - unfold workspaceSymbol. needs.
    - apply keeps_workspaceSymbol. intros ? ? ?; apply Hmute. }
  exact (conj Hopen (conj Hclose (conj Hchange (conj Hgeterr (conj Hdefinition
           (conj Hsymbol (conj Hresolve (conj Hrename Hworkspace)))))))).
Qed.

End BeforeInitialize.

(** *** Who publishes *)

Section WhoPublishes.
Context {host : Host}.

(** X7. No call of the dispatcher other than [onTsEvent] touches the
    diagnostic queue or publishes diagnostics, whether the call returns
    or throws. *)
Theorem only_events_publish (s : LspServer.t) :
  let q := LspServer.diagnosticQueue s in
  (forall params, unpublished q (initialize params s)) /\
  (forall now params, unpublished q (didOpenTextDocument now params s)) /\
  (forall params, unpublished q (didCloseTextDocument params s)) /\
  (forall now params, unpublished q (didChangeTextDocument now params s)) /\
  (forall params, unpublished q (didSaveTextDocument params s)) /\
  (forall params, unpublished q (definition params s)) /\
  (forall params, unpublished q (documentSymbol params s)) /\
  (forall item, unpublished q (completionResolve item s)) /\
  (forall params, unpublished q (rename params s)) /\
  (forall params, unpublished q (workspaceSymbol params s)).
Proof.
  intros q.
  assert (Hkept : forall (A : Type) (m : M A),
             keeps (fun s' => LspServer.diagnosticQueue s' = q)
                   (fun e => is_publish e = false) m ->
             unpublished q (m s)).
  { intros A m Hm. destruct (Hm s eq_refl) as [Hq Hquiet].
    split; [exact Hq|now apply publications_nil]. }
  assert (Hinitialize : forall params, unpublished q (initialize params s))
    by (intros; now split).
  assert (Hopen : forall now params, unpublished q (didOpenTextDocument now params s))
    by (intros; apply Hkept, keeps_didOpenTextDocument; now intros).
  assert (Hclose : forall params, unpublished q (didCloseTextDocument params s))
    by (intros; apply Hkept, keeps_didCloseTextDocument; now intros).
  assert (Hchange : forall now params, unpublished q (didChangeTextDocument now params s))
    by (intros; apply Hkept, keeps_didChangeTextDocument; now intros).
  assert (Hsave : forall params, unpublished q (didSaveTextDocument params s))
    by (intros; now split).
  assert (Hdefinition : forall params, unpublished q (definition params s))
    by (intros; apply Hkept, keeps_definition; now intros).
  assert (Hsymbol : forall params, unpublished q (documentSymbol params s))
    by (intros; apply Hkept, keeps_documentSymbol; now intros).
  assert (Hresolve : forall item, unpublished q (completionResolve item s))
    by (intros; apply Hkept, keeps_completionResolve; now intros).
  assert (Hrename : forall params, unpublished q (rename params s))
    by (intros; apply Hkept, keeps_rename; now intros).
  assert (Hworkspace : forall params, unpublished q (workspaceSymbol params s))
    by (intros; apply Hkept, keeps_workspaceSymbol; now intros).
  exact (conj Hinitialize (conj Hopen (conj Hclose (conj Hchange (conj Hsave
           (conj Hdefinition (conj Hsymbol (conj Hresolve (conj Hrename Hworkspace))))))))).
Qed.

(** X8. An event whose name is neither of the two diagnostic event
    names changes nothing in the server and publishes nothing; it is
    only logged as ignored, with its type. *)
Theorem other_events_are_ignored (event : tsp.Event.t) (s : LspServer.t) :
  tsp.Event.event event <> SementicDiag ->
  tsp.Event.event event <> SyntaxDiag ->
  onTsEvent event s = (Ok tt, s, [logger_log ("Ignored event : " ++ tsp.Event.type event)]).
Proof.
  intros Hsem Hsyn. unfold onTsEvent, log. unfold mbind, M_bind, bind, get, emit.
  destruct (String.eqb_spec (tsp.Event.event event) SementicDiag); [contradiction|].
  destruct (String.eqb_spec (tsp.Event.event event) SyntaxDiag); [contradiction|].
  reflexivity.
Qed.

End WhoPublishes.

(** *** The map of open documents *)

Lemma Map_has_In (k : string) (m : Map.t) : Map.has k m = true <-> In k (Map.keys m).
Proof.
  unfold Map.has, Map.keys. rewrite existsb_exists, in_map_iff. split.
  - intros ([k' v] & Hin & Heq). apply String.eqb_eq in Heq. simpl in Heq. subst.
    now exists (k, v).
  - intros ([k' v] & Heq & Hin). simpl in Heq. subst.
    exists (k, v). split; [exact Hin|apply String.eqb_refl].
Qed.

Lemma Map_keys_set (k : string) (v : Z) (m : Map.t) :
  Map.keys (Map.set k v m) = if Map.has k m then Map.keys m else (Map.keys m ++ [k])%list.
Proof.
  induction m as [|[k0 v0] m IH]; simpl; [reflexivity|].
  unfold Map.has in *; simpl.
  destruct (String.eqb_spec k0 k) as [->|Hne]; simpl; [reflexivity|].
  rewrite IH. now destruct (existsb _ m).
Qed.

Lemma Map_keys_delete (k : string) (m : Map.t) :
  Map.keys (Map.delete k m) = List.filter (fun k' => negb (String.eqb k' k)) (Map.keys m).
Proof.
  induction m as [|[k0 v0] m IH]; simpl; [reflexivity|].
  unfold Map.delete in *; simpl. destruct (String.eqb k0 k); simpl; now rewrite IH.
Qed.

Lemma Map_NoDup_set (k : string) (v : Z) (m : Map.t) :
  List.NoDup (Map.keys m) -> List.NoDup (Map.keys (Map.set k v m)).
Proof.
  intros Hm. rewrite Map_keys_set.
  destruct (Map.has k m) eqn:Hhas; [exact Hm|].
  apply NoDup_ListNoDup. apply NoDup_ListNoDup in Hm.
  apply NoDup_app. split; [exact Hm|]. split; [|apply NoDup_singleton].
  intros k' Hin Hk. apply list_elem_of_In in Hin, Hk. destruct Hk as [->|[]].
  apply Map_has_In in Hin. congruence.
Qed.

Lemma Map_NoDup_delete (k : string) (m : Map.t) :
  List.NoDup (Map.keys m) -> List.NoDup (Map.keys (Map.delete k m)).
Proof. intros Hm. rewrite Map_keys_delete. now apply List.NoDup_filter. Qed.

Lemma Map_In_set (k : string) (v : Z) (m : Map.t) :
  List.NoDup (Map.keys m) ->
  forall k' v',
    In (k', v') (Map.entries (Map.set k v m)) <->
    (k' = k /\ v' = v) \/ (k' <> k /\ In (k', v') (Map.entries m)).
Proof.
  unfold Map.entries. induction m as [|[k0 v0] m IH]; intros Hm k' v'; simpl.
  - split; [intros [[= <- <-]|[]]; now left|intros [[-> ->]|[_ []]]; now left].
  - inversion Hm as [|? ? Hk0 Hm']; subst.
    destruct (String.eqb_spec k0 k) as [->|Hne]; simpl.
    + split.
      * intros [[= <- <-]|Hin]; [now left|]. right. split; [|now right].
        intros ->. apply Hk0. apply in_map_iff. now exists (k, v').
      * intros [[-> ->]|[Hne [[= <- <-]|Hin]]]; [now left|contradiction|now right].
    + rewrite (IH Hm'). split.
      * intros [[= <- <-]|[[-> ->]|[Hne' Hin]]];
          [right; split; [exact Hne|now left]|now left|right; split; [exact Hne'|now right]].
      * intros [[-> ->]|[Hne' [[= <- <-]|Hin]]];
          [right; now left|now left|right; right; now split].
Qed.

Lemma Map_In_delete (k : string) (m : Map.t) :
  forall k' v',
    In (k', v') (Map.entries (Map.delete k m)) <-> k' <> k /\ In (k', v') (Map.entries m).
Proof.
  intros k' v'. unfold Map.entries, Map.delete. rewrite filter_In. simpl.
  destruct (String.eqb_spec k' k) as [->|Hne]; simpl; split;
    try (intros [? ?]); try split; auto; try discriminate; try contradiction.
Qed.

Lemma Map_delete_absent (k : string) (m : Map.t) : Map.has k m = false -> Map.delete k m = m.
Proof.
  unfold Map.has, Map.delete. induction m as [|[k0 v0] m IH]; simpl; [reflexivity|].
  intros Hhas. apply orb_false_iff in Hhas as [Hk0 Hm]. rewrite Hk0. simpl.
  now rewrite IH.
Qed.

Section OpenDocuments.
Context {host : Host}.

Lemma didChangeTextDocument_documents (now : Z) (params : lsp.DidChangeTextDocumentParams.t)
    (s : LspServer.t) :
  LspServer.openedDocumentUris (state (didChangeTextDocument now params s)) =
    Map.set (lsp.TextDocumentIdentifier.uri
               (lsp.DidChangeTextDocumentParams.textDocument params))
      now (LspServer.openedDocumentUris s).
Proof.
  unfold didChangeTextDocument. cbv zeta.
  match goal with
  | |- context [for_of ?l ?b ≫= ?k] => set (rest := for_of l b ≫= k)
  end.
  unfold set_openedDocumentUris, log. unfold mbind, M_bind, bind, emit, get, put, state.
  simpl.
  match goal with |- context [rest ?s1] => set (touched := s1) end.
  assert (Hrest : keeps (fun s' => LspServer.openedDocumentUris s' =
                                   LspServer.openedDocumentUris touched)
                        (fun _ => True) rest).
  { subst rest. apply keeps_bind.
    - apply keeps_for_of. intros change. apply keeps_applyChange; now intros.
    - intros _. apply keeps_requestDiagnostics; now intros. }
  destruct (Hrest touched eq_refl) as [Hkept _]. unfold state in Hkept.
  destruct (rest touched) as [[r s2] e2]. simpl in *. exact Hkept.
Qed.

(** X9. A document change is recorded before anything is written to
    tsserver: while there is no transport client, [didChangeTextDocument]
    throws, yet the document is in the map of open documents afterwards,
    with the time of the call; [didOpenTextDocument] and
    [didCloseTextDocument] leave the server as it was. *)
Theorem change_is_recorded_though_it_throws (s : LspServer.t) :
  started s = false ->
  (forall now params,
     (exists message, outcome (didChangeTextDocument now params s) = TypeError message) /\
     LspServer.openedDocumentUris (state (didChangeTextDocument now params s)) =
       Map.set (lsp.TextDocumentIdentifier.uri
                  (lsp.DidChangeTextDocumentParams.textDocument params))
         now (LspServer.openedDocumentUris s)) /\
  (forall now params, state (didOpenTextDocument now params s) = s) /\
  (forall params, state (didCloseTextDocument params s) = s).
Proof.
  intros Hs. split; [|split].
  - intros now params. split; [|apply didChangeTextDocument_documents].
    assert (Hneeds : needs_client (didChangeTextDocument now params)).
    { unfold didChangeTextDocument. cbv zeta.
      apply needs_client_then; [apply keeps_log; reflexivity|intros _].
      apply needs_client_then; [apply keeps_get|intros s0].
      apply needs_client_then;
        [apply keeps_set_openedDocumentUris; now intros|intros _].
      apply needs_client_then.
      - apply keeps_for_of. intros change.
        apply keeps_applyChange; first [reflexivity|intros; congruence].
      - intros _. apply needs_client_requestDiagnostics. }
    exact (Hneeds s Hs).
  - intros now params. unfold didOpenTextDocument, notify, log, started in *.
    unfold mbind, M_bind, bind, emit, get, throw, state.
    now destruct (LspServer.tspClient s).
  - intros params. unfold didCloseTextDocument, notify, log, started in *.
    unfold mbind, M_bind, bind, emit, get, throw, state.
    now destruct (LspServer.tspClient s).
Qed.

Lemma reanalyses_cons_log (text : string) (es : list Effect) :
  reanalyses (logger_log text :: es) = reanalyses es.
Proof. reflexivity. Qed.

(** The re-analysis request that ends an open or a change, by the
    document URIs it is computed from. *)
Lemma reanalysis_of_documents (s : LspServer.t) :
  started s = true ->
  (forall now params,
     reanalyses (effects (didOpenTextDocument now params s)) =
       [List.map uriToPath
          (List.map fst
             (Array.sort byTimestamp
                (Map.entries
                   (LspServer.openedDocumentUris
                      (state (didOpenTextDocument now params s))))))]) /\
  (forall now params,
     reanalyses (effects (didChangeTextDocument now params s)) =
       [List.map uriToPath
          (List.map fst
             (Array.sort byTimestamp
                (Map.entries
                   (LspServer.openedDocumentUris
                      (state (didChangeTextDocument now params s))))))]).
Proof.
  intros Hs. split; intros now params.
  - rewrite didOpenTextDocument_run by exact Hs.
    match goal with |- context [requestDiagnostics ?o] => set (opened := o) end.
    rewrite (requestDiagnostics_run opened Hs). reflexivity.
  - rewrite didChangeTextDocument_run by exact Hs.
    match goal with |- context [requestDiagnostics ?o] => set (touched := o) end.
    rewrite (requestDiagnostics_run touched Hs). unfold effects, state; simpl.
    now rewrite reanalyses_app, reanalyses_change_messages.
Qed.

Lemma sorted_keys (m : Map.t) :
  Permutation (List.map fst (Array.sort byTimestamp m))
              (Map.keys m).
Proof. unfold Map.keys. apply Permutation_map, sort_Permutation. Qed.

(** X10. The map of open documents never holds a document twice: open,
    change and close keep its keys distinct, and the re-analysis request
    that ends an open or a change is computed from a list of document
    URIs without repetition. *)
Theorem open_documents_stay_distinct (s : LspServer.t) :
  started s = true ->
  List.NoDup (Map.keys (LspServer.openedDocumentUris s)) ->
  (forall now params,
     List.NoDup (Map.keys (LspServer.openedDocumentUris
                             (state (didOpenTextDocument now params s)))) /\
     exists uris,
       reanalyses (effects (didOpenTextDocument now params s)) = [List.map uriToPath uris] /\
       List.NoDup uris) /\
  (forall now params,
     List.NoDup (Map.keys (LspServer.openedDocumentUris
                             (state (didChangeTextDocument now params s)))) /\
     exists uris,
       reanalyses (effects (didChangeTextDocument now params s)) = [List.map uriToPath uris] /\
       List.NoDup uris) /\
  (forall params,
     List.NoDup (Map.keys (LspServer.openedDocumentUris
                             (state (didCloseTextDocument params s))))).
Proof.
  intros Hs Hm. destruct (reanalysis_of_documents s Hs) as [Hopen Hchange].
  split; [|split].
  - intros now params.
    assert (Hnew : List.NoDup (Map.keys (LspServer.openedDocumentUris
                                           (state (didOpenTextDocument now params s))))).
    { rewrite didOpenTextDocument_run by exact Hs. now apply Map_NoDup_set. }
    split; [exact Hnew|]. eexists. split; [apply Hopen|].
    eapply Permutation_NoDup; [symmetry; apply sorted_keys|exact Hnew].
  - intros now params.
    assert (Hnew : List.NoDup (Map.keys (LspServer.openedDocumentUris
                                           (state (didChangeTextDocument now params s))))).
    { rewrite didChangeTextDocument_documents. now apply Map_NoDup_set. }
    split; [exact Hnew|]. eexists. split; [apply Hchange|].
    eapply Permutation_NoDup; [symmetry; apply sorted_keys|exact Hnew].
  - intros params. rewrite didCloseTextDocument_run by exact Hs.
    now apply Map_NoDup_delete.
Qed.

(** X11. An open or a change of a document stamps that document with the
    time of the call and changes the entry of no other document; a
    change of a document that was never opened enters it in the map all
    the same. *)
Theorem touch_stamps_one_document (s : LspServer.t) :
  started s = true ->
  List.NoDup (Map.keys (LspServer.openedDocumentUris s)) ->
  (forall now params k v,
     In (k, v) (Map.entries (LspServer.openedDocumentUris
                               (state (didOpenTextDocument now params s)))) <->
     (k = lsp.TextDocumentItem.uri (lsp.DidOpenTextDocumentParams.textDocument params) /\
      v = now) \/
     (k <> lsp.TextDocumentItem.uri (lsp.DidOpenTextDocumentParams.textDocument params) /\
      In (k, v) (Map.entries (LspServer.openedDocumentUris s)))) /\
  (forall now params k v,
     In (k, v) (Map.entries (LspServer.openedDocumentUris
                               (state (didChangeTextDocument now params s)))) <->
     (k = lsp.TextDocumentIdentifier.uri
            (lsp.DidChangeTextDocumentParams.textDocument params) /\
      v = now) \/
     (k <> lsp.TextDocumentIdentifier.uri
             (lsp.DidChangeTextDocumentParams.textDocument params) /\
      In (k, v) (Map.entries (LspServer.openedDocumentUris s)))).
Proof.
  intros Hs Hm. split; intros now params k v.
  - rewrite didOpenTextDocument_run by exact Hs. now apply Map_In_set.
  - rewrite didChangeTextDocument_documents. now apply Map_In_set.
Qed.

(** X12. A close removes the entry of the closed document and no other;
    the close of a document that is not open leaves the server as it
    was and still sends tsserver a close notification for its path. *)
Theorem close_removes_one_document (s : LspServer.t)
    (params : lsp.DidOpenTextDocumentParams.t) :
  started s = true ->
  let uri := lsp.TextDocumentItem.uri (lsp.DidOpenTextDocumentParams.textDocument params) in
  (forall k v,
     In (k, v) (Map.entries (LspServer.openedDocumentUris
                               (state (didCloseTextDocument params s)))) <->
     k <> uri /\ In (k, v) (Map.entries (LspServer.openedDocumentUris s))) /\
  (Map.has uri (LspServer.openedDocumentUris s) = false ->
   didCloseTextDocument params s =
     (Ok tt, s,
      [ logger_log "onDidCloseTextDocument";
        tspClient_notify CommandTypes.Close (Args.FileRequestArgs (uriToPath uri)) ])).
Proof.
  intros Hs uri. rewrite didCloseTextDocument_run by exact Hs. fold uri. split.
  - intros k v. apply Map_In_delete.
  - intros Habsent. rewrite Map_delete_absent by exact Habsent. now destruct s.
Qed.

Lemma didCloseTextDocument_started (params : lsp.DidOpenTextDocumentParams.t)
    (s : LspServer.t) :
  started s = true -> started (state (didCloseTextDocument params s)) = true.
Proof. intros Hs. now rewrite didCloseTextDocument_run. Qed.

(** X13. Once a document is closed, the re-analysis request of the next
    open or change of another document is computed without it, and with
    the document just opened or changed. *)
Theorem closed_document_leaves_reanalysis (s : LspServer.t)
    (closing : lsp.DidOpenTextDocumentParams.t) :
  started s = true ->
  let uri := lsp.TextDocumentItem.uri (lsp.DidOpenTextDocumentParams.textDocument closing) in
  let closed := state (didCloseTextDocument closing s) in
  (forall now params,
     lsp.TextDocumentItem.uri (lsp.DidOpenTextDocumentParams.textDocument params) <> uri ->
     exists uris,
       reanalyses (effects (didOpenTextDocument now params closed)) =
         [List.map uriToPath uris] /\
       ~ In uri uris /\
       In (lsp.TextDocumentItem.uri (lsp.DidOpenTextDocumentParams.textDocument params)) uris) /\
  (forall now params,
     lsp.TextDocumentIdentifier.uri (lsp.DidChangeTextDocumentParams.textDocument params)
       <> uri ->
     exists uris,
       reanalyses (effects (didChangeTextDocument now params closed)) =
         [List.map uriToPath uris] /\
       ~ In uri uris /\
       In (lsp.TextDocumentIdentifier.uri
             (lsp.DidChangeTextDocumentParams.textDocument params)) uris).
Proof.
  intros Hs uri closed.
  assert (Hclosed : started closed = true) by now apply didCloseTextDocument_started.
  assert (Hgone : Map.has uri (LspServer.openedDocumentUris closed) = false).
  { subst closed. rewrite didCloseTextDocument_run by exact Hs. apply Map_has_delete. }
  destruct (reanalysis_of_documents closed Hclosed) as [Hopen Hchange].
  assert (Hkeys : forall (k : string) (now : Z) (x : string),
             In x (List.map fst
                     (Array.sort byTimestamp
                        (Map.set k now (LspServer.openedDocumentUris closed)))) <->
             Map.has x (Map.set k now (LspServer.openedDocumentUris closed)) = true).
  { intros k now x. rewrite Map_has_In. split; apply Permutation_in;
      [|symmetry]; apply sorted_keys. }
  split; intros now params Hother; eexists;
    (split; [first [apply Hopen|apply Hchange]|]).
  - rewrite didOpenTextDocument_run by exact Hclosed. unfold state; simpl.
    unfold Map.entries. rewrite !Hkeys, !Map_has_set, Hgone, String.eqb_refl.
    split; [|reflexivity].
    destruct (String.eqb_spec
                (lsp.TextDocumentItem.uri (lsp.DidOpenTextDocumentParams.textDocument params))
                uri); [contradiction|discriminate].
  - rewrite didChangeTextDocument_documents.
    unfold Map.entries. rewrite !Hkeys, !Map_has_set, Hgone, String.eqb_refl.
    split; [|reflexivity].
    destruct (String.eqb_spec
                (lsp.TextDocumentIdentifier.uri
                   (lsp.DidChangeTextDocumentParams.textDocument params))
                uri); [contradiction|discriminate].
Qed.

End OpenDocuments.

(** *** Workspace symbols *)

Section WorkspaceSymbols.
Context {host : Host}.

Lemma workspaceSymbol_sends (params : lsp.WorkspaceSymbolParams.t) (s : LspServer.t)
    (file : option string) :
  started s = true ->
  lastFileOrDummy s = (Ok file, s, []) ->
  effects (workspaceSymbol params s) =
    [ tspClient_request CommandTypes.Navto
        (Args.NavtoRequestArgs file (lsp.WorkspaceSymbolParams.query params)) ].
Proof.
  intros Hs Hfile. unfold workspaceSymbol.
  unfold mbind at 1, M_bind, bind. rewrite client_member_run by exact Hs.
  unfold mbind at 1, M_bind, bind. rewrite Hfile.
  unfold mbind, M_bind, bind, effects. now rewrite request_run by exact Hs.
Qed.

Lemma lastFileOrDummy_first (s : LspServer.t) (uri : string) (timestamp : Z) (rest : Map.t) :
  LspServer.openedDocumentUris s = (uri, timestamp) :: rest ->
  lastFileOrDummy s = (Ok (Some (uriToPath uri)), s, []).
Proof.
  intros Hm. unfold lastFileOrDummy. unfold mbind, M_bind, bind, get.
  now rewrite Hm.
Qed.

(** X14. While the document that was opened first stays open, every
    workspace-symbol search is scoped to it: opening other documents,
    changing any document and closing any other document leave the
    scoping file where it is. *)
Theorem scoping_file_stays_first (s : LspServer.t) (uri : string) (timestamp : Z)
    (rest : Map.t) (query : lsp.WorkspaceSymbolParams.t) :
  started s = true ->
  LspServer.openedDocumentUris s = (uri, timestamp) :: rest ->
  let scoped (s' : LspServer.t) : Prop :=
    effects (workspaceSymbol query s') =
      [ tspClient_request CommandTypes.Navto
          (Args.NavtoRequestArgs (Some (uriToPath uri))
             (lsp.WorkspaceSymbolParams.query query)) ] in
  scoped s /\
  (forall now params, scoped (state (didOpenTextDocument now params s))) /\
  (forall now params, scoped (state (didChangeTextDocument now params s))) /\
  (forall params,
     lsp.TextDocumentItem.uri (lsp.DidOpenTextDocumentParams.textDocument params) <> uri ->
     scoped (state (didCloseTextDocument params s))).
Proof.
  intros Hs Hm scoped.
  assert (Hscoped : forall s' t' rest',
             started s' = true ->
             LspServer.openedDocumentUris s' = (uri, t') :: rest' -> scoped s').
  { intros s' t' rest' Hs' Hm'. apply workspaceSymbol_sends; [exact Hs'|].
    now apply (lastFileOrDummy_first s' uri t' rest'). }
  assert (Hset : forall k now, exists t' rest',
             Map.set k now ((uri, timestamp) :: rest) = (uri, t') :: rest').
  { intros k now. simpl. destruct (String.eqb uri k); eauto. }
  split; [now apply (Hscoped s timestamp rest)|]. split; [|split].
  - intros now params.
    destruct (Hset (lsp.TextDocumentItem.uri
                      (lsp.DidOpenTextDocumentParams.textDocument params)) now)
      as (t' & rest' & Heq).
    apply (Hscoped _ t' rest'); rewrite didOpenTextDocument_run by exact Hs;
      [exact Hs|]. unfold state; simpl. now rewrite Hm.
  - intros now params.
    destruct (Hset (lsp.TextDocumentIdentifier.uri
                      (lsp.DidChangeTextDocumentParams.textDocument params)) now)
      as (t' & rest' & Heq).
    apply (Hscoped _ t' rest').
    + now rewrite didChangeTextDocument_run by exact Hs.
    + now rewrite didChangeTextDocument_documents, Hm.
  - intros params Hother.
    apply (Hscoped _ timestamp
             (Map.delete (lsp.TextDocumentItem.uri
                            (lsp.DidOpenTextDocumentParams.textDocument params)) rest));
      rewrite didCloseTextDocument_run by exact Hs; [exact Hs|].
    unfold state; simpl. rewrite Hm. unfold Map.delete; simpl.
    destruct (String.eqb_spec uri
                (lsp.TextDocumentItem.uri
                   (lsp.DidOpenTextDocumentParams.textDocument params)));
      [now subst|reflexivity].
Qed.

(** X15. With no document open a workspace-symbol search is scoped to
    the path of [rootUri] when that is a non-empty string, and else to
    [rootPath], which is sent as it is, undefined included; an empty
    [rootUri] counts as absent. *)
Theorem scoping_file_falls_back_to_root (s : LspServer.t)
    (initializeParams : lsp.InitializeParams.t) (query : lsp.WorkspaceSymbolParams.t) :
  started s = true ->
  LspServer.openedDocumentUris s = [] ->
  LspServer.initializeParams s = Some initializeParams ->
  effects (workspaceSymbol query s) =
    [ tspClient_request CommandTypes.Navto
        (Args.NavtoRequestArgs
           match lsp.InitializeParams.rootUri initializeParams with
           | Some rootUri =>
               if String.eqb rootUri ""
               then lsp.InitializeParams.rootPath initializeParams
               else Some (uriToPath rootUri)
           | None => lsp.InitializeParams.rootPath initializeParams
           end
           (lsp.WorkspaceSymbolParams.query query)) ].
Proof.
  intros Hs Hm Hp. apply workspaceSymbol_sends; [exact Hs|].
  unfold lastFileOrDummy. unfold mbind, M_bind, bind, get. rewrite Hm, Hp. simpl.
  destruct (lsp.InitializeParams.rootUri initializeParams) as [rootUri|]; simpl;
    [|reflexivity].
  now destruct (String.eqb rootUri "").
Qed.

End WorkspaceSymbols.

(** *** Rename *)

Section RenameFacts.
Context {host : Host}.

Lemma edits_for_unmentioned (newName uri : string) (locs : list tsp.SpanGroup.t) :
  mentions uri locs = false -> edits_for newName uri locs = [].
Proof.
  unfold mentions, edits_for. induction locs as [|g locs IH]; simpl; [reflexivity|].
  intros Hno. apply orb_false_iff in Hno as [Hg Hlocs]. rewrite Hg. now apply IH.
Qed.

(** The change set after the groups of a response have been added to a
    change set [changes]. *)
Lemma addSpanGroup_fold (newName : string) (locs : list tsp.SpanGroup.t) :
  forall (changes : gmap string (list lsp.TextEdit.t)) (uri : string),
    fold_left (addSpanGroup newName) locs changes !! uri =
      if mentions uri locs
      then Some (default [] (changes !! uri) ++ edits_for newName uri locs)%list
      else changes !! uri.
Proof.
  induction locs as [|g locs IH]; intros changes uri; [reflexivity|].
  change (fold_left (addSpanGroup newName) (g :: locs) changes)
    with (fold_left (addSpanGroup newName) locs (addSpanGroup newName changes g)).
  rewrite IH.
  change (mentions uri (g :: locs))
    with (String.eqb (pathToUri (tsp.SpanGroup.file g)) uri || mentions uri locs)%bool.
  change (edits_for newName uri (g :: locs))
    with ((if String.eqb (pathToUri (tsp.SpanGroup.file g)) uri
           then edits_of newName (tsp.SpanGroup.locs g) else []) ++
          edits_for newName uri locs)%list.
  assert (Hstep : addSpanGroup newName changes g !! uri =
                    if String.eqb (pathToUri (tsp.SpanGroup.file g)) uri
                    then Some (default [] (changes !! uri) ++
                               edits_of newName (tsp.SpanGroup.locs g))%list
                    else changes !! uri).
  { unfold addSpanGroup.
    destruct (String.eqb_spec (pathToUri (tsp.SpanGroup.file g)) uri) as [Heq|Hne].
    - rewrite <- Heq. apply lookup_insert_eq.
    - now apply lookup_insert_ne. }
  rewrite Hstep.
  destruct (String.eqb (pathToUri (tsp.SpanGroup.file g)) uri),
    (mentions uri locs) eqn:Hrest; cbn [orb default].
  - now rewrite app_assoc.
  - now rewrite (edits_for_unmentioned newName uri locs Hrest), app_nil_r.
  - reflexivity.
  - reflexivity.
Qed.

Lemma rename_run (params : lsp.RenameParams.t) (s : LspServer.t) :
  started s = true ->
  exists k,
    outcome (rename params s) = Ok k /\
    forall result,
      k result =
        match tsp.Response.body result with
        | None => Ok {| lsp.WorkspaceEdit.changes := ∅ |}
        | Some body =>
            if negb (tsp.RenameInfo.canRename (tsp.RenameResponseBody.info body))
               || (Z.of_nat (length (tsp.RenameResponseBody.locs body)) =? 0)%Z
            then Ok {| lsp.WorkspaceEdit.changes := ∅ |}
            else Ok {| lsp.WorkspaceEdit.changes :=
                         fold_left (addSpanGroup (lsp.RenameParams.newName params))
                           (tsp.RenameResponseBody.locs body) ∅ |}
        end.
Proof.
  intros Hs. unfold rename, log. unfold mbind, M_bind, bind, emit, outcome.
  rewrite request_run by exact Hs. simpl.
  eexists; split; [reflexivity|]. intros result. reflexivity.
Qed.

(** X16. For a response that allows the rename and has location groups,
    the workspace edit holds, for each document URI of the response, the
    edits of all the groups of that document joined in the order of the
    response, and holds nothing for any other URI. *)
Theorem rename_groups_edits_by_document (params : lsp.RenameParams.t) (s : LspServer.t)
    (result : tsp.Response.t tsp.RenameResponseBody.t) (body : tsp.RenameResponseBody.t) :
  started s = true ->
  tsp.Response.body result = Some body ->
  tsp.RenameInfo.canRename (tsp.RenameResponseBody.info body) = true ->
  tsp.RenameResponseBody.locs body <> [] ->
  exists k edit,
    outcome (rename params s) = Ok k /\
    k result = Ok edit /\
    forall uri,
      lsp.WorkspaceEdit.changes edit !! uri =
        if mentions uri (tsp.RenameResponseBody.locs body)
        then Some (edits_for (lsp.RenameParams.newName params) uri
                     (tsp.RenameResponseBody.locs body))
        else None.
Proof.
  intros Hs Hbody Hcan Hlocs. destruct (rename_run params s Hs) as (k & Hk & Hresume).
  exists k,
    {| lsp.WorkspaceEdit.changes :=
         fold_left (addSpanGroup (lsp.RenameParams.newName params))
           (tsp.RenameResponseBody.locs body) ∅ |}.
  split; [exact Hk|]. split.
  - rewrite Hresume, Hbody, Hcan.
    destruct (tsp.RenameResponseBody.locs body); [contradiction|reflexivity].
  - intros uri. cbn [lsp.WorkspaceEdit.changes].
    rewrite addSpanGroup_fold, lookup_empty. reflexivity.
Qed.

(** X17. Every edit of the workspace edit [rename] returns carries the
    new name and the translated range of a span that the response lists
    for the document the edit is filed under. *)
Theorem rename_edits_come_from_spans (params : lsp.RenameParams.t) (s : LspServer.t)
    (result : tsp.Response.t tsp.RenameResponseBody.t) (uri : string)
    (edits : list lsp.TextEdit.t) :
  started s = true ->
  (exists k edit,
     outcome (rename params s) = Ok k /\ k result = Ok edit /\
     lsp.WorkspaceEdit.changes edit !! uri = Some edits) ->
  forall textEdit, In textEdit edits ->
    lsp.TextEdit.newText textEdit = lsp.RenameParams.newName params /\
    exists body group textSpan,
      tsp.Response.body result = Some body /\
      In group (tsp.RenameResponseBody.locs body) /\
      pathToUri (tsp.SpanGroup.file group) = uri /\
      In textSpan (tsp.SpanGroup.locs group) /\
      lsp.TextEdit.range textEdit =
        {| lsp.Range.start := toPosition (tsp.TextSpan.start textSpan);
           lsp.Range.end_ := toPosition (tsp.TextSpan.end_ textSpan) |}.
Proof.
  intros Hs (k & edit & Hk & Hedit & Hfiled) textEdit Hin.
  destruct (rename_run params s Hs) as (k' & Hk' & Hresume).
  rewrite Hk in Hk'. injection Hk' as <-. rewrite Hresume in Hedit.
  destruct (tsp.Response.body result) as [body|];
    [|injection Hedit as <-; simpl in Hfiled; now rewrite lookup_empty in Hfiled].
  destruct (negb _ || _)%bool;
    [injection Hedit as <-; simpl in Hfiled; now rewrite lookup_empty in Hfiled|].
  injection Hedit as <-. simpl in Hfiled.
  rewrite addSpanGroup_fold, lookup_empty in Hfiled.
  destruct (mentions uri _); [|discriminate]. injection Hfiled as <-. simpl in Hin.
  unfold edits_for in Hin. apply in_flat_map in Hin as (group & Hgroup & Hin).
  destruct (String.eqb_spec (pathToUri (tsp.SpanGroup.file group)) uri) as [Huri|_];
    [|destruct Hin].
  unfold edits_of in Hin. apply in_map_iff in Hin as (textSpan & <- & Hspan).
  split; [reflexivity|]. exists body, group, textSpan. now repeat split.
Qed.

(** X18. [rename] returns the empty change set only when the rename was
    refused: when the response has no body, or does not allow the
    rename, or lists no location group. *)
Theorem rename_empty_only_when_refused (params : lsp.RenameParams.t) (s : LspServer.t)
    (result : tsp.Response.t tsp.RenameResponseBody.t) :
  started s = true ->
  exists k edit,
    outcome (rename params s) = Ok k /\ k result = Ok edit /\
    (lsp.WorkspaceEdit.changes edit = ∅ <->
     tsp.Response.body result = None \/
     exists body,
       tsp.Response.body result = Some body /\
       (tsp.RenameInfo.canRename (tsp.RenameResponseBody.info body) = false \/
        tsp.RenameResponseBody.locs body = [])).
Proof.
  intros Hs. destruct (rename_run params s Hs) as (k & Hk & Hresume).
  exists k. rewrite Hresume.
  destruct (tsp.Response.body result) as [body|];
    [|eexists; split; [exact Hk|]; split; [reflexivity|]; split; auto].
  destruct (tsp.RenameInfo.canRename (tsp.RenameResponseBody.info body)) eqn:Hcan; simpl;
    [|eexists; split; [exact Hk|]; split; [reflexivity|]; split; eauto].
  destruct (tsp.RenameResponseBody.locs body) as [|g locs] eqn:Hlocs; simpl;
    [eexists; split; [exact Hk|]; split; [reflexivity|]; split; eauto|].
  eexists; split; [exact Hk|]. split; [reflexivity|]. simpl. split.
  - intros Hempty.
    assert (Hlookup := addSpanGroup_fold (lsp.RenameParams.newName params) (g :: locs)
                         ∅ (pathToUri (tsp.SpanGroup.file g))).
    simpl in Hlookup. rewrite Hempty, lookup_empty, String.eqb_refl in Hlookup.
    discriminate Hlookup.
  - intros [Hnone|(body' & [= <-] & [Hno|Hnil])]; congruence.
Qed.

End RenameFacts.

(** *** Completion, hover and missing bodies *)


Section ReplyFacts.
Context {host : Host}.

Lemma completionResolve_run (item : lsp.CompletionItem.t) (data : lsp.CompletionData.t)
    (s : LspServer.t) :
  started s = true ->
  lsp.CompletionItem.data item = Some data ->
  effects (completionResolve item s) =
    [ logger_log "completion/resolve";
      tspClient_request CommandTypes.CompletionDetails
        (Args.CompletionDetailsRequestArgs [lsp.CompletionItem.label item]
           (lsp.CompletionData.file data) (lsp.CompletionData.line data)
           (lsp.CompletionData.offset data)) ] /\
  exists k,
    outcome (completionResolve item s) = Ok k /\
    forall result,
      k result =
        match tsp.Response.body result with
        | None => Ok item
        | Some [] => TypeError "Cannot read property 'documentation' of undefined"
        | Some (details :: _) =>
            Ok {| lsp.CompletionItem.label := lsp.CompletionItem.label item;
                  lsp.CompletionItem.kind := lsp.CompletionItem.kind item;
                  lsp.CompletionItem.documentation :=
                    Some (Array.join newline
                            (List.map tsp.SymbolDisplayPart.text
                               (tsp.CompletionEntryDetails.documentation details)));
                  lsp.CompletionItem.data := lsp.CompletionItem.data item |}
        end.
Proof.
  intros Hs Hdata. unfold completionResolve, log. rewrite Hdata.
  unfold mbind, M_bind, bind, emit, outcome, effects.
  rewrite request_run by exact Hs. simpl.
  split; [reflexivity|]. eexists; split; [reflexivity|]. intros result. reflexivity.
Qed.

(** X19. Every item [completion] returns can be resolved: it carries the
    name of an entry of the response as label, and [completionResolve]
    on it asks tsserver for the details of that name at the file and the
    one-based position of the completion request. *)
Theorem completion_items_resolve_at_their_position
    (params : lsp.TextDocumentPositionParams.t)
    (result : tsp.Response.t (list tsp_replies.CompletionEntry.t))
    (list : lsp_replies.CompletionList.t) (item : lsp.CompletionItem.t) (s : LspServer.t) :
  started s = true ->
  completion_reply params result = Ok list ->
  In item (lsp_replies.CompletionList.items list) ->
  (exists body entry,
     tsp.Response.body result = Some body /\ In entry body /\
     lsp.CompletionItem.label item = tsp_replies.CompletionEntry.name entry) /\
  effects (completionResolve item s) =
    [ logger_log "completion/resolve";
      tspClient_request CommandTypes.CompletionDetails
        (Args.CompletionDetailsRequestArgs [lsp.CompletionItem.label item]
           (uriToPath (lsp.TextDocumentIdentifier.uri
                         (lsp.TextDocumentPositionParams.textDocument params)))
           (Number.add (lsp.Position.line (lsp.TextDocumentPositionParams.position params)) 1)
           (Number.add
              (lsp.Position.character (lsp.TextDocumentPositionParams.position params)) 1)) ].
Proof.
  intros Hs Hreply Hin. unfold completion_reply in Hreply. injection Hreply as <-.
  simpl in Hin. destruct (tsp.Response.body result) as [body|]; [|destruct Hin].
  apply in_map_iff in Hin as (entry & <- & Hentry). split.
  - exists body, entry. now repeat split.
  - match goal with
    | |- effects (completionResolve ?i s) = _ =>
        destruct (completionResolve_run i _ s Hs eq_refl) as [Heffects _]
    end.
    exact Heffects.
Qed.

(** X20. Resolving with a response that has details replaces the
    documentation of the item by the texts of the first details entry,
    joined by newlines, and keeps label, kind and data; a response
    whose details array is empty makes the call throw. *)
Theorem completionResolve_with_details (item : lsp.CompletionItem.t) (s : LspServer.t)
    (data : lsp.CompletionData.t) :
  started s = true ->
  lsp.CompletionItem.data item = Some data ->
  exists k,
    outcome (completionResolve item s) = Ok k /\
    (forall details rest,
       exists resolved,
         k {| tsp.Response.body := Some (details :: rest) |} = Ok resolved /\
         lsp.CompletionItem.label resolved = lsp.CompletionItem.label item /\
         lsp.CompletionItem.kind resolved = lsp.CompletionItem.kind item /\
         lsp.CompletionItem.data resolved = lsp.CompletionItem.data item /\
         lsp.CompletionItem.documentation resolved =
           Some (String.concat newline
                   (List.map tsp.SymbolDisplayPart.text
                      (tsp.CompletionEntryDetails.documentation details)))) /\
    (exists message, k {| tsp.Response.body := Some [] |} = TypeError message).
Proof.
  intros Hs Hdata.
  destruct (completionResolve_run item data s Hs Hdata) as [_ (k & Hk & Hresume)].
  exists k. split; [exact Hk|]. split.
  - intros details rest. rewrite Hresume. simpl. eexists. split; [reflexivity|].
    now repeat split.
  - rewrite Hresume. simpl. eauto.
Qed.

(** X21. [hover] never fails on a response: without body it answers
    empty contents and no range; with a body the contents start with the
    display string marked as typescript, the documentation follows
    exactly when it is not empty, and the range is the translated span. *)
Theorem hover_reply_shape (result : tsp.Response.t tsp_replies.QuickInfoResponseBody.t) :
  exists hover,
    hover_reply result = Ok hover /\
    ~ In (lsp_replies.MarkedString.plain "") (lsp_replies.Hover.contents hover) /\
    match tsp.Response.body result with
    | None =>
        lsp_replies.Hover.contents hover = [] /\ lsp_replies.Hover.range hover = None
    | Some body =>
        let display :=
          lsp_replies.MarkedString.code "typescript"
            (tsp_replies.QuickInfoResponseBody.displayString body) in
        let documentation := tsp_replies.QuickInfoResponseBody.documentation body in
        lsp_replies.Hover.contents hover =
          (if String.eqb documentation "" then [display]
           else [display; lsp_replies.MarkedString.plain documentation]) /\
        lsp_replies.Hover.range hover =
          Some {| lsp.Range.start :=
                    toPosition (tsp_replies.QuickInfoResponseBody.start body);
                  lsp.Range.end_ :=
                    toPosition (tsp_replies.QuickInfoResponseBody.end_ body) |}
    end.
Proof.
  unfold hover_reply. destruct (tsp.Response.body result) as [body|].
  - eexists. split; [reflexivity|]. unfold truthy. simpl.
    destruct (String.eqb_spec (tsp_replies.QuickInfoResponseBody.documentation body) "")
      as [Heq|Hne]; simpl.
    + split; [|now split]. intros [Hin|[]]. discriminate Hin.
    + split; [|now split]. intros [Hin|[Hin|[]]]; [discriminate Hin|].
      injection Hin as Hin. now apply Hne.
  - eexists. split; [reflexivity|]. simpl. split; [intros []|now split].
Qed.

(** X22. A response without body is a result, not a failure:
    [definition], [documentSymbol], [workspaceSymbol] and [references]
    answer the empty list, [completion] a complete list without items,
    [hover] empty contents. *)
Theorem missing_body_is_an_empty_result (s : LspServer.t) :
  started s = true ->
  (forall params, exists k,
     outcome (definition params s) = Ok k /\ k {| tsp.Response.body := None |} = Ok []) /\
  (forall params, exists k,
     outcome (documentSymbol params s) = Ok k /\ k {| tsp.Response.body := None |} = Ok []) /\
  (forall params k,
     outcome (workspaceSymbol params s) = Ok k -> k {| tsp.Response.body := None |} = Ok []) /\
  references_reply {| tsp.Response.body := None |} = Ok [] /\
  (forall params,
     completion_reply params {| tsp.Response.body := None |} =
       Ok {| lsp_replies.CompletionList.isIncomplete := false;
             lsp_replies.CompletionList.items := [] |}) /\
  hover_reply {| tsp.Response.body := None |} =
    Ok {| lsp_replies.Hover.contents := []; lsp_replies.Hover.range := None |}.
Proof.
  intros Hs. split; [|split; [|split; [|now repeat split]]].
  - intros params. unfold definition, log. unfold mbind, M_bind, bind, emit, outcome.
    rewrite request_run by exact Hs. simpl. eexists; split; reflexivity.
  - intros params. destruct (documentSymbol_run params s Hs) as (k & Hk & Hresume).
    exists k. split; [exact Hk|]. now rewrite Hresume.
  - intros params k. unfold workspaceSymbol. unfold mbind at 1, M_bind, bind, outcome.
    rewrite client_member_run by exact Hs. unfold mbind at 1, M_bind, bind.
    destruct (lastFileOrDummy s) as [[[file|message] s1] e1] eqn:Hfile; simpl;
      [|discriminate].
    assert (Hs1 : started s1 = true).
    { assert (Hkept := keeps_lastFileOrDummy (fun s' => started s' = true)
                         (fun _ => True) s Hs).
      rewrite Hfile in Hkept. now destruct Hkept. }
    unfold mbind, M_bind, bind. rewrite request_run by exact Hs1. simpl.
    now intros [= <-].
Qed.


End ReplyFacts.

(** *** The further properties on the session *)

Lemma pathToUri_injective_witness :
  pathToUri (host := posix) "/a.ts" = pathToUri (host := posix) "/a.ts" /\ "/a.ts" = "/a.ts".
Proof.
  split; [reflexivity|].
  apply (pathToUri_injective (host := posix) "/a.ts" "/a.ts"). reflexivity.
Defined.

Lemma session_safe_location (line offset : Z) :
  (0 <= line <= 100)%Z -> (0 <= offset <= 100)%Z ->
  safe_location (Session.at_ line offset).
Proof.
  unfold safe_location. simpl. change (2 ^ 53)%Z with 9007199254740992%Z. lia.
Qed.

Lemma definition_at_reported_location_witness :
  started Session.opened_a = true /\
  safe_location (tsp.FileSpan.start Samples.fileSpan) /\
  effects (definition (host := posix)
             {| lsp.TextDocumentPositionParams.textDocument :=
                  {| lsp.TextDocumentIdentifier.uri := "file:///b.ts" |};
                lsp.TextDocumentPositionParams.position :=
                  lsp.Range.start
                    (lsp.Location.range (toLocation (host := posix) Samples.fileSpan)) |}
             Session.opened_a) =
    [ logger_log "definition";
      tspClient_request CommandTypes.Definition_
        (Args.FileLocationRequestArgs "/b.ts" 3 7) ].
Proof.
  split; [reflexivity|]. split; [apply session_safe_location; lia|].
  apply (definition_at_reported_location (host := posix) Session.opened_a Samples.fileSpan
           {| lsp.TextDocumentIdentifier.uri := "file:///b.ts" |});
    [reflexivity|apply session_safe_location; lia].
Defined.

Lemma translated_ranges_keep_order_witness :
  safe_location (tsp.FileSpan.start Samples.fileSpan) /\
  safe_location (tsp.FileSpan.end_ Samples.fileSpan) /\
  (position_le
     (lsp.Range.start (lsp.Location.range (toLocation (host := posix) Samples.fileSpan)))
     (lsp.Range.end_ (lsp.Location.range (toLocation (host := posix) Samples.fileSpan))) <->
   location_le (tsp.FileSpan.start Samples.fileSpan) (tsp.FileSpan.end_ Samples.fileSpan)).
Proof.
  split; [apply session_safe_location; lia|]. split; [apply session_safe_location; lia|].
  apply (translated_ranges_keep_order (host := posix) Samples.fileSpan
           (Session.diagnostic "';' expected")); apply session_safe_location; lia.
Defined.

Lemma nothing_is_sent_before_initialize_witness :
  started Samples.constructed = false /\
  threw_unsent (didOpenTextDocument (host := posix) 10 Session.a_ts Samples.constructed) /\
  threw_unsent (didChangeTextDocument (host := posix) 30 Session.changes Samples.constructed).
Proof.
  split; [reflexivity|].
  destruct (nothing_is_sent_before_initialize (host := posix) Samples.constructed)
    as (Hopen & _ & Hchange & _); [reflexivity|].
  split; [apply Hopen|apply Hchange].
Defined.

Lemma other_events_are_ignored_witness :
  tsp.Event.event Samples.other <> SementicDiag (Host := posix) /\
  tsp.Event.event Samples.other <> SyntaxDiag (Host := posix) /\
  onTsEvent (host := posix) Samples.other Session.opened_a =
    (Ok tt, Session.opened_a, [logger_log "Ignored event : event"]).
Proof.
  split; [discriminate|]. split; [discriminate|].
  apply (other_events_are_ignored (host := posix) Samples.other Session.opened_a);
    discriminate.
Defined.

Lemma change_is_recorded_though_it_throws_witness :
  started Samples.constructed = false /\
  LspServer.openedDocumentUris
    (state (didChangeTextDocument (host := posix) 30 Session.changes Samples.constructed)) =
    [("file:///a.ts", 30%Z)] /\
  state (didOpenTextDocument (host := posix) 10 Session.a_ts Samples.constructed) =
    Samples.constructed.
Proof.
  split; [reflexivity|].
  destruct (change_is_recorded_though_it_throws (host := posix) Samples.constructed)
    as (Hchange & Hopen & _); [reflexivity|].
  split; [apply (Hchange 30%Z Session.changes)|apply Hopen].
Defined.

Lemma session_distinct : List.NoDup (Map.keys (LspServer.openedDocumentUris Session.opened_a)).
Proof. repeat constructor. intros []. Qed.

Lemma open_documents_stay_distinct_witness :
  started Session.opened_a = true /\
  List.NoDup (Map.keys (LspServer.openedDocumentUris Session.opened_a)) /\
  List.NoDup (Map.keys (LspServer.openedDocumentUris
                          (state (didOpenTextDocument (host := posix) 20 Session.b_ts
                                    Session.opened_a)))).
Proof.
  split; [reflexivity|]. split; [exact session_distinct|].
  destruct (open_documents_stay_distinct (host := posix) Session.opened_a)
    as (Hopen & _); [reflexivity|exact session_distinct|].
  apply (Hopen 20%Z Session.b_ts).
Defined.

Lemma touch_stamps_one_document_witness :
  started Session.opened_a = true /\
  List.NoDup (Map.keys (LspServer.openedDocumentUris Session.opened_a)) /\
  In ("file:///b.ts", 30%Z)
    (Map.entries (LspServer.openedDocumentUris
                    (state (didChangeTextDocument (host := posix) 30 Samples.change_b
                              Session.opened_a)))).
Proof.
  split; [reflexivity|]. split; [exact session_distinct|].
  destruct (touch_stamps_one_document (host := posix) Session.opened_a)
    as (_ & Hchange); [reflexivity|exact session_distinct|].
  apply (Hchange 30%Z Samples.change_b). left. split; reflexivity.
Defined.

Lemma close_removes_one_document_witness :
  started Session.opened_a = true /\
  Map.has "file:///b.ts" (LspServer.openedDocumentUris Session.opened_a) = false /\
  didCloseTextDocument (host := posix) Session.b_ts Session.opened_a =
    (Ok tt, Session.opened_a,
     [ logger_log "onDidCloseTextDocument";
       tspClient_notify CommandTypes.Close (Args.FileRequestArgs "/b.ts") ]).
Proof.
  split; [reflexivity|]. split; [reflexivity|].
  apply (close_removes_one_document (host := posix) Session.opened_a Session.b_ts);
    reflexivity.
Defined.

Lemma closed_document_leaves_reanalysis_witness :
  started Session.opened_a_b = true /\
  "file:///b.ts" <> "file:///a.ts" /\
  exists uris,
    reanalyses
      (effects (didChangeTextDocument (host := posix) 30 Samples.change_b
                  (state (didCloseTextDocument (host := posix) Session.a_ts
                            Session.opened_a_b)))) =
      [List.map (uriToPath (host := posix)) uris] /\
    ~ In "file:///a.ts" uris /\ In "file:///b.ts" uris.
Proof.
  split; [reflexivity|]. split; [discriminate|].
  destruct (closed_document_leaves_reanalysis (host := posix) Session.opened_a_b Session.a_ts)
    as (_ & Hchange); [reflexivity|].
  apply (Hchange 30%Z Samples.change_b). discriminate.
Defined.

Lemma scoping_file_stays_first_witness :
  started Session.opened_a_b = true /\
  LspServer.openedDocumentUris Session.opened_a_b =
    [("file:///a.ts", 10%Z); ("file:///b.ts", 20%Z)] /\
  effects (workspaceSymbol (host := posix) {| lsp.WorkspaceSymbolParams.query := "A" |}
             (state (didChangeTextDocument (host := posix) 30 Samples.change_b
                       Session.opened_a_b))) =
    [ tspClient_request CommandTypes.Navto (Args.NavtoRequestArgs (Some "/a.ts") "A") ].
Proof.
  split; [reflexivity|]. split; [reflexivity|].
  destruct (scoping_file_stays_first (host := posix) Session.opened_a_b "file:///a.ts" 10%Z
              [("file:///b.ts", 20%Z)] {| lsp.WorkspaceSymbolParams.query := "A" |})
    as (_ & _ & Hchange & _); [reflexivity|reflexivity|].
  apply (Hchange 30%Z Samples.change_b).
Defined.

Lemma scoping_file_falls_back_to_root_witness :
  started Session.initialized = true /\
  LspServer.openedDocumentUris Session.initialized = [] /\
  LspServer.initializeParams Session.initialized = Some Session.initializeParams /\
  effects (workspaceSymbol (host := posix) {| lsp.WorkspaceSymbolParams.query := "A" |}
             Session.initialized) =
    [ tspClient_request CommandTypes.Navto (Args.NavtoRequestArgs (Some "/project") "A") ].
Proof.
  split; [reflexivity|]. split; [reflexivity|]. split; [reflexivity|].
  apply (scoping_file_falls_back_to_root (host := posix) Session.initialized
           Session.initializeParams {| lsp.WorkspaceSymbolParams.query := "A" |});
    reflexivity.
Defined.

Lemma rename_groups_edits_by_document_witness :
  started Session.opened_a = true /\
  exists k edit,
    outcome (rename (host := posix) Session.renameParams Session.opened_a) = Ok k /\
    k Samples.renamable = Ok edit /\
    lsp.WorkspaceEdit.changes edit !! "file:///a.ts" =
      Some (edits_of "b" [Session.span 1 5 1 6; Session.span 7 9 7 10]) /\
    lsp.WorkspaceEdit.changes edit !! "file:///c.ts" = None.
Proof.
  split; [reflexivity|].
  destruct (rename_groups_edits_by_document (host := posix) Session.renameParams
              Session.opened_a Samples.renamable
              (default {| tsp.RenameResponseBody.info :=
                            {| tsp.RenameInfo.canRename := true;
                               tsp.RenameInfo.displayName := "" |};
                          tsp.RenameResponseBody.locs := [] |}
                 (tsp.Response.body Samples.renamable)))
    as (k & edit & Hk & Hedit & Hfiled);
    [reflexivity|reflexivity|reflexivity|discriminate|].
  exists k, edit. split; [exact Hk|]. split; [exact Hedit|].
  split; [apply (Hfiled "file:///a.ts")|apply (Hfiled "file:///c.ts")].
Defined.

Lemma rename_edits_come_from_spans_witness :
  started Session.opened_a = true /\
  forall textEdit,
    In textEdit (edits_of "b" [Session.span 1 5 1 6; Session.span 7 9 7 10]) ->
    lsp.TextEdit.newText textEdit = "b".
Proof.
  split; [reflexivity|]. intros textEdit Hin.
  apply (rename_edits_come_from_spans (host := posix) Session.renameParams Session.opened_a
           Samples.renamable "file:///a.ts"
           (edits_of "b" [Session.span 1 5 1 6; Session.span 7 9 7 10]));
    [reflexivity| |exact Hin].
  destruct (rename_run (host := posix) Session.renameParams Session.opened_a)
    as (k & Hk & Hresume); [reflexivity|].
  exists k,
    {| lsp.WorkspaceEdit.changes :=
         fold_left (addSpanGroup (host := posix) "b")
           [ {| tsp.SpanGroup.file := "/a.ts"; tsp.SpanGroup.locs := [Session.span 1 5 1 6] |};
             {| tsp.SpanGroup.file := "/b.ts"; tsp.SpanGroup.locs := [Session.span 3 1 3 2] |};
             {| tsp.SpanGroup.file := "/a.ts";
                tsp.SpanGroup.locs := [Session.span 7 9 7 10] |} ] ∅ |}.
  split; [exact Hk|]. split; [rewrite Hresume; reflexivity|]. vm_compute. reflexivity.
Defined.

Lemma rename_empty_only_when_refused_witness :
  started Session.opened_a = true /\
  exists k edit,
    outcome (rename (host := posix) Session.renameParams Session.opened_a) = Ok k /\
    k Samples.renamable = Ok edit /\
    lsp.WorkspaceEdit.changes edit <> ∅.
Proof.
  split; [reflexivity|].
  destruct (rename_empty_only_when_refused (host := posix) Session.renameParams
              Session.opened_a Samples.renamable)
    as (k & edit & Hk & Hedit & Hiff); [reflexivity|].
  exists k, edit. split; [exact Hk|]. split; [exact Hedit|].
  intros Hempty. apply Hiff in Hempty.
  destruct Hempty as [Hnone|(body & [= <-] & [Hno|Hnil])]; discriminate.
Defined.

Lemma completion_items_resolve_at_their_position_witness :
  started Session.opened_a = true /\
  In Samples.toString_item
    (match completion_reply (host := posix) Session.at_a_ts Samples.completions with
     | Ok list => lsp_replies.CompletionList.items list
     | TypeError _ => []
     end) /\
  effects (completionResolve Samples.toString_item Session.opened_a) =
    [ logger_log "completion/resolve";
      tspClient_request CommandTypes.CompletionDetails
        (Args.CompletionDetailsRequestArgs ["toString"] "/a.ts" 1 5) ].
Proof.
  split; [reflexivity|]. split; [left; reflexivity|].
  apply (completion_items_resolve_at_their_position (host := posix) Session.at_a_ts
           Samples.completions
           {| lsp_replies.CompletionList.isIncomplete := false;
              lsp_replies.CompletionList.items :=
                [ Samples.toString_item;
                  {| lsp.CompletionItem.label := "a"; lsp.CompletionItem.kind := Js.undefined;
                     lsp.CompletionItem.documentation := None;
                     lsp.CompletionItem.data := lsp.CompletionItem.data Samples.toString_item |}
                ] |}
           Samples.toString_item Session.opened_a);
    [reflexivity|reflexivity|left; reflexivity].
Defined.

Lemma completionResolve_with_details_witness :
  started Session.opened_a = true /\
  lsp.CompletionItem.data Session.completionItem = Some Session.completionData /\
  exists k resolved,
    outcome (completionResolve Session.completionItem Session.opened_a) = Ok k /\
    k {| tsp.Response.body := Some [Samples.details] |} = Ok resolved /\
    lsp.CompletionItem.documentation resolved = Some ("first" ++ newline ++ "second").
Proof.
  split; [reflexivity|]. split; [reflexivity|].
  destruct (completionResolve_with_details Session.completionItem Session.opened_a
              Session.completionData) as (k & Hk & Hdetails & _);
    [reflexivity|reflexivity|].
  destruct (Hdetails Samples.details []) as (resolved & Hresolved & _ & _ & _ & Hdoc).
  exists k, resolved. split; [exact Hk|]. split; [exact Hresolved|exact Hdoc].
Defined.

Lemma missing_body_is_an_empty_result_witness :
  started Session.opened_a = true /\
  exists k,
    outcome (definition (host := posix) Session.at_a_ts Session.opened_a) = Ok k /\
    k {| tsp.Response.body := None |} = Ok [].
Proof.
  split; [reflexivity|].
  destruct (missing_body_is_an_empty_result (host := posix) Session.opened_a)
    as (Hdefinition & _); [reflexivity|].
  apply Hdefinition.
Defined.

